(** * Mental-health support chatbot (scripts/code2.py)

    A shallow embedding of the chatbot's core: the knowledge-base lookup,
    the pattern response engine, the sentiment scorer, the response
    orchestration with its conversation log, the resource suggester, the
    resource seeding and the send handler of the chat window.

    Conventions.
    - A Python [str] is a [string]: a sequence of 8-bit characters.  The
      operations on characters ([lower], white space, word characters) are
      those of the ASCII range; characters outside it are carried through
      unchanged (the templates hold a few UTF-8 encoded dashes).
    - A Python exception is the outcome [Raise]; a loop that the source does
      not bound is run with fuel and reports [Diverge] when it runs out.
    - The module-level [cursor]/[conn] pair, i.e. the SQLite file, is the
      [World] that is passed along, together with what was printed; the
      generator of the [random] module is passed along beside it as [Rng]. *)

From Stdlib Require Import String Ascii List ZArith QArith Bool Arith Lia.
Import ListNotations.
Local Open Scope nat_scope.
Local Open Scope list_scope.
Local Open Scope string_scope.

(** ** Python [str] primitives *)

Module Py.

Definition code (c : ascii) : nat := nat_of_ascii c.

Definition between (lo hi : nat) (c : ascii) : bool :=
  (lo <=? code c)%nat && (code c <=? hi)%nat.

(** [str.isspace] on the ASCII range: TAB..CR, FS..US and the blank. *)
Definition isspace (c : ascii) : bool := between 9 13 c || between 28 32 c.

Definition isupper (c : ascii) : bool := between 65 90 c.
Definition isdigit (c : ascii) : bool := between 48 57 c.

(** [\w] of the [re] module on the ASCII range. *)
Definition isword (c : ascii) : bool :=
  between 97 122 c || between 65 90 c || isdigit c || (code c =? 95)%nat.

Definition lower_char (c : ascii) : ascii :=
  if isupper c then ascii_of_nat (code c + 32) else c.

(** [s.lower()] *)
Fixpoint lower (s : string) : string :=
  match s with
  | EmptyString => EmptyString
  | String c s' => String (lower_char c) (lower s')
  end.

(** Truth value of a [str]: the empty string is false. *)
Definition truthy (s : string) : bool :=
  match s with EmptyString => false | String _ _ => true end.

(** [s.split()]: the maximal runs of characters that are not white space.
    [cur] is the run being read. *)
Fixpoint split_from (cur : string) (s : string) : list string :=
  match s with
  | EmptyString => if truthy cur then [cur] else []
  | String c s' =>
      if isspace c
      then (if truthy cur then cur :: split_from "" s' else split_from "" s')
      else split_from (cur ++ String c "") s'
  end.

Definition split (s : string) : list string := split_from "" s.

(** [s.lstrip()], [s.rstrip()] and [s.strip()] *)
Fixpoint lstrip (s : string) : string :=
  match s with
  | String c s' => if isspace c then lstrip s' else s
  | EmptyString => EmptyString
  end.

Fixpoint rstrip (s : string) : string :=
  match s with
  | EmptyString => EmptyString
  | String c s' =>
      match rstrip s' with
      | EmptyString => if isspace c then EmptyString else String c EmptyString
      | r => String c r
      end
  end.

Definition strip (s : string) : string := rstrip (lstrip s).

(** [s.find(c)] for a one-character needle: [None] stands for [-1]. *)
Fixpoint find (c : ascii) (s : string) : option nat :=
  match s with
  | EmptyString => None
  | String d s' =>
      if Ascii.eqb d c then Some 0%nat
      else option_map S (find c s')
  end.

(** [s[:n]] and [s[n:]] for [0 <= n]. *)
Fixpoint take (n : nat) (s : string) : string :=
  match n, s with
  | S n', String c s' => String c (take n' s')
  | _, _ => EmptyString
  end.

Fixpoint drop (n : nat) (s : string) : string :=
  match n, s with
  | S n', String _ s' => drop n' s'
  | _, _ => s
  end.

(** [s[i:j]] for [0 <= i <= j]. *)
Definition slice (i j : nat) (s : string) : string := take (j - i) (drop i s).

(** [s[-2:]] and [s[:-2]] *)
Definition last2 (s : string) : string := drop (String.length s - 2) s.
Definition but_last2 (s : string) : string := take (String.length s - 2) s.

(** [x in l] for a list of strings. *)
Definition mem (x : string) (l : list string) : bool :=
  existsb (String.eqb x) l.

End Py.

(** ** Outcomes of a call *)

Inductive exn : Type :=
| ValueError
| IndexError
| KeyError
| AttributeError
| ReError.

Inductive outcome (A : Type) : Type :=
| Ok (a : A)
| Raise (e : exn)
| Diverge.
Arguments Ok {A} a.
Arguments Raise {A} e.
Arguments Diverge {A}.

Definition bind {A B : Type} (m : outcome A) (f : A -> outcome B) : outcome B :=
  match m with
  | Ok a => f a
  | Raise e => Raise e
  | Diverge => Diverge
  end.

Notation "x <- m ;; k" := (bind m (fun x => k))
  (at level 61, m at next level, right associativity).

(** ** 4.4 Sentiment scorer: [EnhancedMentalHealthChatbot.analyze_sentiment] *)

Definition positive_words : list string :=
  ["happy"; "good"; "great"; "awesome"; "better"; "improved"].
Definition negative_words : list string :=
  ["sad"; "depressed"; "anxious"; "bad"; "terrible"; "hopeless"].

(** The body of the [for word in words] loop, on the running [score]. *)
Definition sentiment_step (score : Z) (word : string) : Z :=
  if Py.mem word positive_words then (score + 1)%Z
  else if Py.mem word negative_words then (score - 1)%Z
  else score.

Definition analyze_sentiment (text : string) : Z :=
  let words := Py.split (Py.lower text) in
  fold_left sentiment_step words 0%Z.



(** ** The [re] module, as far as the pattern table uses it

    The patterns of the table are built from literal characters, [.], a
    greedy [*] on a single character, groups [( )] and alternation [|].
    They are compiled with [re.IGNORECASE] and applied with [match], which
    anchors at the start of the input only.  [re] is a backtracking matcher:
    [Alt] tries its left branch first and [Star] the longest run first. *)

Module Re.

Inductive atom : Type :=
| Chr (c : ascii)          (* a literal character, letter case ignored *)
| Any.                     (* [.]: any character but the line feed *)

Inductive regex : Type :=
| Eps
| Atom (a : atom)
| Star (a : atom)
| Seq (r1 r2 : regex)
| Alt (r1 r2 : regex)
| Group (n : nat) (r : regex).

Definition newline : ascii := ascii_of_nat 10.

Definition atom_match (a : atom) (c : ascii) : bool :=
  match a with
  | Chr d => Ascii.eqb (Py.lower_char d) (Py.lower_char c)
  | Any => negb (Ascii.eqb c newline)
  end.

(** *** Compiling the text of a pattern

    [parse_alt] reads an alternation and [parse_seq] one branch of it; [n]
    is the number of groups opened so far, so that groups are numbered by
    their opening parenthesis.  Syntax outside the fragment is refused. *)
Definition special (c : ascii) : bool :=
  Py.mem (String c "") ["\"; "["; "]"; "{"; "}"; "+"; "?"; "^"; "$"; "*"].

Fixpoint parse_alt (fuel : nat) (s : string) (n : nat)
  : option (regex * string * nat) :=
  match fuel with
  | O => None
  | S fuel' =>
      match parse_seq fuel' s n with
      | Some (r1, String "|" s1, n1) =>
          match parse_alt fuel' s1 n1 with
          | Some (r2, s2, n2) => Some (Alt r1 r2, s2, n2)
          | None => None
          end
      | other => other
      end
  end
with parse_seq (fuel : nat) (s : string) (n : nat)
  : option (regex * string * nat) :=
  match fuel with
  | O => None
  | S fuel' =>
      match s with
      | EmptyString => Some (Eps, s, n)
      | String "|" _ => Some (Eps, s, n)
      | String ")" _ => Some (Eps, s, n)
      | String "(" s1 =>
          match parse_alt fuel' s1 (S n) with
          | Some (r, String ")" s2, n2) =>
              match parse_seq fuel' s2 n2 with
              | Some (r', s3, n3) => Some (Seq (Group (S n) r) r', s3, n3)
              | None => None
              end
          | _ => None
          end
      | String c s1 =>
          if special c then None
          else
            let a := if Ascii.eqb c "." then Any else Chr c in
            match s1 with
            | String "*" s2 =>
                match parse_seq fuel' s2 n with
                | Some (r', s3, n3) => Some (Seq (Star a) r', s3, n3)
                | None => None
                end
            | _ =>
                match parse_seq fuel' s1 n with
                | Some (r', s3, n3) => Some (Seq (Atom a) r', s3, n3)
                | None => None
                end
            end
      end
  end.

(** A compiled pattern: its expression and its number of groups. *)
Record pattern : Type := { rx : regex; ngroups : nat }.

(** [re.compile(text, re.IGNORECASE)]; [None] is [re.error] or syntax that
    this model does not cover. *)
Definition compile (text : string) : option pattern :=
  match parse_alt (S (String.length text)) text 0 with
  | Some (r, EmptyString, n) => Some {| rx := r; ngroups := n |}
  | _ => None
  end.

(** *** Matching *)

(** The text of the groups that took part in the match, latest first. *)
Definition captures : Type := list (nat * string).

Fixpoint lookup (n : nat) (g : captures) : option string :=
  match g with
  | [] => None
  | (i, t) :: g' => if (i =? n)%nat then Some t else lookup n g'
  end.

(** What was read between the input [s] and its suffix [s']. *)
Definition consumed (s s' : string) : string :=
  Py.take (String.length s - String.length s') s.

Section Run.
Context {R : Type}.

(** [a*] on [s]: the longest run first, then shorter ones. *)
Fixpoint star (a : atom) (s : string) (k : string -> option R) : option R :=
  match s with
  | String c s' =>
      if atom_match a c
      then match star a s' k with
           | Some x => Some x
           | None => k s
           end
      else k s
  | EmptyString => k s
  end.

(** [run r s g k]: match [r] at the head of [s] with the groups [g] set
    so far, and hand the rest of the input to [k]; when [k] fails, the
    next way of matching [r] is tried. *)
Fixpoint run (r : regex) (s : string) (g : captures)
         (k : string -> captures -> option R) : option R :=
  match r with
  | Eps => k s g
  | Atom a =>
      match s with
      | String c s' => if atom_match a c then k s' g else None
      | EmptyString => None
      end
  | Star a => star a s (fun s' => k s' g)
  | Seq r1 r2 => run r1 s g (fun s' g' => run r2 s' g' k)
  | Alt r1 r2 =>
      match run r1 s g k with
      | Some x => Some x
      | None => run r2 s g k
      end
  | Group n r1 => run r1 s g (fun s' g' => k s' ((n, consumed s s') :: g'))
  end.
End Run.

(** A match object. *)
Record match_obj : Type :=
  { whole : string; groups : captures; group_count : nat }.

(** [pattern.match(s)] *)
Definition rmatch (p : pattern) (s : string) : option match_obj :=
  run (rx p) s []
      (fun s' g => Some {| whole := consumed s s'; groups := g;
                           group_count := ngroups p |}).

(** [m.group(num)]: [Ok None] for a group that took no part. *)
Definition group (m : match_obj) (num : nat) : outcome (option string) :=
  if (num =? 0)%nat then Ok (Some (whole m))
  else if (group_count m <? num)%nat then Raise IndexError
  else Ok (lookup num (groups m)).

End Re.

(** ** The store and the random generator

    [conn]/[cursor] give access to three tables; [user_profiles] is created
    and never read or written, so it is left out.  [id] is an
    [INTEGER PRIMARY KEY AUTOINCREMENT]: the store keeps the largest id it
    has handed out.  The [timestamp] column of [conversations] is filled by
    the store from the column's default and is not part of the rows below;
    [sentiment_score] holds the integer that [analyze_sentiment] returned.
    [console] is what the program has printed. *)

Record ConversationRecord : Type :=
  { conv_id : nat;
    user_input : string;
    bot_response : string;
    sentiment_score : Z }.

Record ResourceEntry : Type :=
  { res_id : nat;
    title : string;
    description : string;
    url : string;
    category : string }.

Record World : Type :=
  { conversations : list ConversationRecord;
    conversations_seq : nat;
    resources : list ResourceEntry;
    resources_seq : nat;
    console : list string }.

(** The generator of the [random] module: [rand] is the sequence of values
    that it will yield and [rand_pos] how many of them have been used. *)
Record Rng : Type := { rand : nat -> nat; rand_pos : nat }.

Definition next_draw (g : Rng) : Rng :=
  {| rand := rand g; rand_pos := S (rand_pos g) |}.

(** [random.choice(seq)]: an [IndexError] on the empty sequence, otherwise
    one draw, reduced to an index of [seq]. *)
Definition random_choice {A : Type} (seq : list A) (g : Rng)
  : outcome A * Rng :=
  match seq with
  | [] => (Raise IndexError, g)
  | x :: _ =>
      (Ok (nth (rand g (rand_pos g) mod List.length seq) seq x), next_draw g)
  end.

(** ** [nltk.chat.util]: [reflections] and the class [Chat] *)

Module Nltk.

Definition reflections : list (string * string) :=
  [ ("i am", "you are");
    ("i was", "you were");
    ("i", "you");
    ("i'm", "you are");
    ("i'd", "you would");
    ("i've", "you have");
    ("i'll", "you will");
    ("my", "your");
    ("you are", "I am");
    ("you were", "I was");
    ("you've", "I have");
    ("you'll", "I will");
    ("your", "my");
    ("yours", "mine");
    ("you", "me");
    ("me", "you") ].

(** [sorted(keys, key=len, reverse=True)]: longest first, keys of one
    length in the order of the dictionary. *)
Fixpoint insert_by_len (k : string) (l : list string) : list string :=
  match l with
  | [] => [k]
  | k' :: l' =>
      if (String.length k <? String.length k')%nat
      then k' :: insert_by_len k l'
      else k :: l
  end.

Definition sorted_by_len (l : list string) : list string :=
  fold_right insert_by_len [] l.

Fixpoint dict_get (d : list (string * string)) (key : string)
  : outcome string :=
  match d with
  | [] => Raise KeyError
  | (k, v) :: d' => if String.eqb k key then Ok v else dict_get d' key
  end.

Record Chat : Type :=
  { pairs : list (Re.pattern * list string);   (* [_pairs] *)
    refl : list (string * string);             (* [_reflections] *)
    refl_keys : list string }.                 (* the branches of [_regex] *)

Fixpoint compile_pairs (l : list (string * list string))
  : outcome (list (Re.pattern * list string)) :=
  match l with
  | [] => Ok []
  | (x, y) :: l' =>
      match Re.compile x with
      | Some p => ps <- compile_pairs l' ;; Ok ((p, y) :: ps)
      | None => Raise ReError
      end
  end.

(** [Chat.__init__] *)
Definition Chat_init (prs : list (string * list string))
           (reflections : list (string * string)) : outcome Chat :=
  ps <- compile_pairs prs ;;
  Ok {| pairs := ps;
        refl := reflections;
        refl_keys := sorted_by_len (map fst reflections) |}.

(** [_regex] is [\b(k1|k2|...)\b] with the keys escaped: at a position of
    the text it matches the first key, in the order of [refl_keys], that
    the text continues with (letter case ignored) between two word
    boundaries. *)
Fixpoint ci_prefix (w s : string) : bool :=
  match w, s with
  | EmptyString, _ => true
  | String a w', String b s' =>
      Re.atom_match (Re.Chr a) b && ci_prefix w' s'
  | String _ _, EmptyString => false
  end.

Definition is_word (c : option ascii) : bool :=
  match c with Some c => Py.isword c | None => false end.

Definition word_boundary (prev next : option ascii) : bool :=
  xorb (is_word prev) (is_word next).

Definition last_char (prev : option ascii) (s : string) : option ascii :=
  match String.get (String.length s - 1) s with
  | Some c => Some c
  | None => prev
  end.

Definition key_matches (prev : option ascii) (s key : string) : bool :=
  let text := Py.take (String.length key) s in
  Py.truthy key
  && ci_prefix key s
  && word_boundary (last_char prev text)
                   (String.get 0 (Py.drop (String.length key) s)).

(** The text matched by [_regex] at the head of [s], when it matches there;
    [prev] is the character before [s]. *)
Definition refl_match (keys : list string) (prev : option ascii) (s : string)
  : option string :=
  if word_boundary prev (String.get 0 s)
  then match List.find (key_matches prev s) keys with
       | Some key => Some (Py.take (String.length key) s)
       | None => None
       end
  else None.

(** [_regex.sub(lambda mo: _reflections[mo.string[mo.start():mo.end()]], s)],
    read from left to right; [skip] counts the characters of the last
    match that are still to be passed over. *)
Fixpoint sub_from (self : Chat) (prev : option ascii) (skip : nat)
         (s : string) : outcome string :=
  match s with
  | EmptyString => Ok EmptyString
  | String c s' =>
      match skip with
      | S n => sub_from self (Some c) n s'
      | O =>
          match refl_match (refl_keys self) prev s with
          | Some text =>
              repl <- dict_get (refl self) text ;;
              rest <- sub_from self (Some c) (String.length text - 1) s' ;;
              Ok (repl ++ rest)
          | None =>
              rest <- sub_from self (Some c) 0 s' ;;
              Ok (String c rest)
          end
      end
  end.

(** [Chat._substitute]; the argument is what [match.group] returned, and
    [None.lower()] is an [AttributeError]. *)
Definition substitute (self : Chat) (str : option string) : outcome string :=
  match str with
  | Some str => sub_from self None 0 (Py.lower str)
  | None => Raise AttributeError
  end.

(** [int(t)] for a text of at most one character. *)
Definition int1 (t : string) : outcome nat :=
  match t with
  | String c EmptyString =>
      if Py.isdigit c then Ok (Py.code c - 48) else Raise ValueError
  | _ => Raise ValueError
  end.

(** [Chat._wildcards]: one unit of [fuel] per pass through the [while]
    loop. *)
Fixpoint wildcards (fuel : nat) (self : Chat) (response : string)
         (m : Re.match_obj) : outcome string :=
  match Py.find "%" response with
  | None => Ok response
  | Some pos =>
      match fuel with
      | O => Diverge
      | S fuel' =>
          num <- int1 (Py.slice (pos + 1) (pos + 2) response) ;;
          g <- Re.group m num ;;
          text <- substitute self g ;;
          wildcards fuel' self
                    (Py.take pos response ++ text ++ Py.drop (pos + 2) response)
                    m
      end
  end.

(** "fix munged punctuation at the end" *)
Definition fix_punctuation (resp : string) : string :=
  let resp := if String.eqb (Py.last2 resp) "?."
              then Py.but_last2 resp ++ "." else resp in
  if String.eqb (Py.last2 resp) "??"
  then Py.but_last2 resp ++ "?" else resp.

(** The loop of [Chat.respond] over [_pairs]; falling off its end returns
    [None].  The store is out of its reach. *)
Fixpoint respond_pairs (fuel : nat) (self : Chat)
         (prs : list (Re.pattern * list string)) (str : string) (g : Rng)
  : outcome (option string) * Rng :=
  match prs with
  | [] => (Ok None, g)
  | (pattern, response) :: prs' =>
      match Re.rmatch pattern str with
      | Some m =>
          let (choice, g') := random_choice response g in
          (resp <- choice ;;
           resp <- wildcards fuel self resp m ;;
           Ok (Some (fix_punctuation resp)), g')
      | None => respond_pairs fuel self prs' str g
      end
  end.

(** [Chat.respond] *)
Definition respond (fuel : nat) (self : Chat) (str : string) (g : Rng)
  : outcome (option string) * Rng :=
  respond_pairs fuel self (pairs self) str g.

End Nltk.

(** ** [difflib]: [SequenceMatcher] and [get_close_matches]

    [get_close_matches] needs three measures of a candidate [a] against the
    word [b]: two cheap upper bounds and the similarity proper.  They are the
    interface [SequenceMatcher]; [Difflib.matcher] below implements it as
    [difflib] does.  A ratio is [2.0 * matches / length], a quotient of two
    integers, and is held as a rational number: for texts of fewer than
    2^50 characters the quotient that Python computes is at least its
    constant [0.6] exactly when the rational number is at least 6/10. *)

Class SequenceMatcher : Type :=
  { real_quick_ratio : string -> string -> Q;
    quick_ratio : string -> string -> Q;
    ratio : string -> string -> Q }.

Module Difflib.
Local Open Scope nat_scope.

(** [_calculate_ratio] *)
Definition calculate_ratio (matches length : nat) : Q :=
  match length with
  | O => 1%Q
  | S _ => Qmake (2 * Z.of_nat matches) (Pos.of_nat length)
  end.

(** *** [SequenceMatcher(None, a, b)], with [autojunk] left on *)

Definition at_ (s : string) (i : nat) : ascii :=
  match String.get i s with Some c => c | None => Ascii.zero end.

Fixpoint indices_from (i : nat) (c : ascii) (b : string) : list nat :=
  match b with
  | EmptyString => []
  | String d b' =>
      if Ascii.eqb d c then i :: indices_from (S i) c b'
      else indices_from (S i) c b'
  end.

(** [b2j.get(c, [])] after [__chain_b]: where [c] occurs in [b], unless
    [b] has 200 characters or more and [c] is popular in it. *)
Definition b2j (b : string) (c : ascii) : list nat :=
  let idxs := indices_from 0 c b in
  let n := String.length b in
  if (200 <=? n) && (n / 100 + 1 <? List.length idxs) then [] else idxs.

Fixpoint j2len_get (d : list (nat * nat)) (j : nat) : nat :=
  match d with
  | [] => 0
  | (j', k) :: d' => if j' =? j then k else j2len_get d' j
  end.

Definition best : Type := (nat * nat * nat)%type.   (* besti, bestj, bestsize *)

(** The loop [for j in b2j.get(a[i], nothing)] of [find_longest_match]. *)
Fixpoint scan_js (i blo bhi : nat) (j2len : list (nat * nat)) (js : list nat)
         (newj2len : list (nat * nat)) (bst : best)
  : list (nat * nat) * best :=
  match js with
  | [] => (newj2len, bst)
  | j :: js' =>
      if j <? blo then scan_js i blo bhi j2len js' newj2len bst
      else if bhi <=? j then (newj2len, bst)
      else
        let k := (match j with O => 0 | S j' => j2len_get j2len j' end) + 1 in
        let '(_, _, bestsize) := bst in
        let bst' := if bestsize <? k then (i + 1 - k, j + 1 - k, k) else bst in
        scan_js i blo bhi j2len js' ((j, k) :: newj2len) bst'
  end.

(** The loop [for i in range(alo, ahi)]. *)
Fixpoint scan_is (a b : string) (blo bhi : nat) (is_ : list nat)
         (j2len : list (nat * nat)) (bst : best) : best :=
  match is_ with
  | [] => bst
  | i :: is' =>
      let '(newj2len, bst') :=
        scan_js i blo bhi j2len (b2j b (at_ a i)) [] bst in
      scan_is a b blo bhi is' newj2len bst'
  end.

(** The two loops that extend the best match; no element is junk. *)
Fixpoint extend_left (n : nat) (a b : string) (alo blo : nat) (bst : best)
  : best :=
  let '(besti, bestj, bestsize) := bst in
  match n with
  | O => bst
  | S n' =>
      if (alo <? besti) && (blo <? bestj)
         && Ascii.eqb (at_ a (besti - 1)) (at_ b (bestj - 1))
      then extend_left n' a b alo blo (besti - 1, bestj - 1, bestsize + 1)
      else bst
  end.

Fixpoint extend_right (n : nat) (a b : string) (ahi bhi : nat) (bst : best)
  : best :=
  let '(besti, bestj, bestsize) := bst in
  match n with
  | O => bst
  | S n' =>
      if (besti + bestsize <? ahi) && (bestj + bestsize <? bhi)
         && Ascii.eqb (at_ a (besti + bestsize)) (at_ b (bestj + bestsize))
      then extend_right n' a b ahi bhi (besti, bestj, bestsize + 1)
      else bst
  end.

Definition find_longest_match (a b : string) (alo ahi blo bhi : nat) : best :=
  let bst := scan_is a b blo bhi (seq alo (ahi - alo)) [] (alo, blo, 0) in
  let bst := extend_left ahi a b alo blo bst in
  extend_right ahi a b ahi bhi bst.

(** The [while queue] loop of [get_matching_blocks], adding up the sizes of
    the blocks; the top of the stack is the head of [queue].  Every pass
    either finds no block or splits a region around a block, so that
    [2 * (len(a) + len(b)) + 1] passes empty the queue. *)
Fixpoint matching_size (fuel : nat) (a b : string)
         (queue : list (nat * nat * nat * nat)) (total : nat) : nat :=
  match fuel, queue with
  | S fuel', (alo, ahi, blo, bhi) :: queue' =>
      let '(i, j, k) := find_longest_match a b alo ahi blo bhi in
      if k =? 0 then matching_size fuel' a b queue' total
      else
        let q1 := if (alo <? i) && (blo <? j)
                  then (alo, i, blo, j) :: queue' else queue' in
        let q2 := if (i + k <? ahi) && (j + k <? bhi)
                  then (i + k, ahi, j + k, bhi) :: q1 else q1 in
        matching_size fuel' a b q2 (total + k)
  | _, _ => total
  end.

Definition sm_ratio (a b : string) : Q :=
  let la := String.length a in
  let lb := String.length b in
  calculate_ratio
    (matching_size (2 * (la + lb) + 1) a b [(0, la, 0, lb)] 0) (la + lb).

(** [quick_ratio]: how many characters of [a] find a partner of their own
    in [b]. *)
Fixpoint count_char (c : ascii) (b : string) : Z :=
  match b with
  | EmptyString => 0%Z
  | String d b' => ((if Ascii.eqb d c then 1 else 0) + count_char c b')%Z
  end.

Fixpoint avail_get (avail : list (ascii * Z)) (c : ascii) : option Z :=
  match avail with
  | [] => None
  | (d, n) :: avail' => if Ascii.eqb d c then Some n else avail_get avail' c
  end.

Fixpoint quick_matches (a b : string) (avail : list (ascii * Z)) (matches : nat)
  : nat :=
  match a with
  | EmptyString => matches
  | String elt a' =>
      let numb := match avail_get avail elt with
                  | Some n => n
                  | None => count_char elt b
                  end in
      quick_matches a' b ((elt, (numb - 1)%Z) :: avail)
                    (if (0 <? numb)%Z then matches + 1 else matches)
  end.

Definition sm_quick_ratio (a b : string) : Q :=
  calculate_ratio (quick_matches a b [] 0) (String.length a + String.length b).

Definition sm_real_quick_ratio (a b : string) : Q :=
  let la := String.length a in
  let lb := String.length b in
  calculate_ratio (Nat.min la lb) (la + lb).

#[export] Instance matcher : SequenceMatcher :=
  { real_quick_ratio := sm_real_quick_ratio;
    quick_ratio := sm_quick_ratio;
    ratio := sm_ratio }.

End Difflib.

Section CloseMatches.
Context {SM : SequenceMatcher}.

(** [y > x] on the pairs [(score, candidate)]: tuples compare by their
    first components and, when these are equal, by their second ones. *)
Definition scored_gt (y x : Q * string) : bool :=
  match Qcompare (fst y) (fst x) with
  | Gt => true
  | Lt => false
  | Eq => match String.compare (snd y) (snd x) with Gt => true | _ => false end
  end.

(** [heapq.nlargest(n, result)] is [sorted(result, reverse=True)[:n]]:
    largest first, equal items in the order in which they came. *)
Fixpoint insert_desc (x : Q * string) (l : list (Q * string))
  : list (Q * string) :=
  match l with
  | [] => [x]
  | y :: l' => if scored_gt y x then y :: insert_desc x l' else x :: l
  end.

Definition nlargest (n : nat) (result : list (Q * string))
  : list (Q * string) :=
  firstn n (fold_right insert_desc [] result).

(** The test of the loop [for x in possibilities]. *)
Definition close_enough (cutoff : Q) (word x : string) : bool :=
  Qle_bool cutoff (real_quick_ratio x word)
  && Qle_bool cutoff (quick_ratio x word)
  && Qle_bool cutoff (ratio x word).

Definition get_close_matches (word : string) (possibilities : list string)
           (n : nat) (cutoff : Q) : outcome (list string) :=
  if negb (0 <? n)%nat then Raise ValueError
  else if negb (Qle_bool 0 cutoff && Qle_bool cutoff 1) then Raise ValueError
  else
    let result :=
      map (fun x => (ratio x word, x))
          (filter (close_enough cutoff word) possibilities) in
    Ok (map snd (nlargest n result)).

(** The threshold of [find_best_match]. *)
Definition cutoff : Q := 6 # 10.

(** [find_best_match(user_question, questions)] *)
Definition find_best_match (user_question : string) (questions : list string)
  : outcome (option string) :=
  matches <- get_close_matches user_question questions 1 cutoff ;;
  Ok (match matches with
      | m :: _ => Some m
      | [] => None
      end).

End CloseMatches.

(** ** The knowledge base

    [knowledge_base] is read once, when the module is loaded, and never
    written afterwards: it is a parameter of [respond].  A document is the
    object [{"questions": [{"question": ..., "answer": ...}, ...]}], with
    texts for questions and answers. *)

Record KnowledgeEntry : Type := { question : string; answer : string }.

Record KnowledgeBase : Type := { questions : list KnowledgeEntry }.


(** ** [EnhancedMentalHealthChatbot] *)

(** [_load_response_patterns] *)
Definition load_response_patterns : list (string * list string) :=
  [ ("(.*) feeling (sad|depressed|lonely|down|exhausted|hopeless)(.*)",
     [ "I'm really sorry you're feeling %2. That sounds really difficult. Would you like to share more about what's going on?";
       "I hear that you're feeling %2. That must be really hard. I'm here to listen if you want to talk about it." ]);
    ("(.*) (stress|anxiety|stressed|anxious|panic|overwhelmed)(.*)",
     [ "%2 can feel really overwhelming. Remember to breathe - you're doing great by reaching out. What specifically is causing your %2?";
       "I understand %2 can be really challenging. Would it help to talk through what's bothering you?" ]);
    ("(.*) (happy|good|great|awesome|wonderful)(.*)",
     [ "I'm so glad you're feeling %2! It's wonderful to hear that. What's contributing to these positive feelings?";
       "That's fantastic that you're feeling %2! Would you like to share what's bringing you joy?" ]);
    ("(.*) (burden|useless|worthless|stupid|not enough|failure)(.*)",
     [ "I want you to know that your feelings are valid, but I'm concerned that you're being so hard on yourself. Would you talk to me more about why you feel this way?";
       "Hearing you say that makes me want to remind you that you matter. These thoughts can be really painful. Would you like to share what's going on?" ]);
    ("(.*) (suicide|end it all|kill myself|don't want to live)(.*)",
     [ "I'm really concerned about what you're saying. Your life is valuable. Please reach out to a crisis hotline immediately. In the US, you can call 988 for the Suicide & Crisis Lifeline. Would you like me to help you find local resources?";
       "I hear how much pain you're in right now. Please know you're not alone. Can I help you connect with someone who can provide more support?" ]);
    ("(.*) (help me|need help|support)(.*)",
     [ "I'm here to help. Can you tell me more about what kind of support you're looking for?";
       "I want to provide the right kind of support. What would be most helpful for you right now?" ]);
    ("(.*) (cope|coping|deal with)(.*)",
     [ "Coping with difficult emotions can be challenging. Some strategies include deep breathing, talking to someone you trust, or engaging in a calming activity. What usually helps you when you're struggling?";
       "Finding healthy ways to cope is so important. Would you like some suggestions for coping strategies that might help?" ]);
    ("(.*) (angry|frustrated|annoyed|irritated|mad)(.*)",
     [ "I hear that you're feeling %2. It's okay to feel this way. Would you like to talk about what's causing these feelings?";
       "Feeling %2 can be really tough. Sometimes taking deep breaths or stepping away for a moment helps. What's bothering you?" ]);
    ("(.*) (scared|afraid|fearful|terrified)(.*)",
     [ "It sounds like you're feeling %2. Fear can be overwhelming. You're safe here—would you like to share what's frightening you?";
       "I'm here with you while you feel %2. Would it help to talk through what's scaring you?" ]);
    ("(.*) (lonely|isolated|alone)(.*)",
     [ "Feeling %2 can be so painful. You're not alone—I'm here to listen. Would you like to talk about what's happening?";
       "I hear your loneliness. Would it help to connect with someone you trust? You matter." ]);
    ("(.*) (confused|uncertain|lost)(.*)",
     [ "Feeling %2 is understandable when things are unclear. Let's try to sort this out together. What's on your mind?";
       "It's okay to feel %2. Sometimes writing things down helps. Would you like to explore this more?" ]);
    ("(.*) (grateful|thankful|appreciative)(.*)",
     [ "It's wonderful that you're feeling %2! Gratitude can be so healing. What are you thankful for today?";
       "Celebrating these %2 feelings with you! Would you like to share what brought this on?" ]);
    ("(.*) (numb|empty|detached)(.*)",
     [ "Feeling %2 can be really disorienting. You're not alone in this. Would you like to talk about what's happening?";
       "I hear that you're feeling %2. Sometimes our minds do this to protect us. Would it help to explore this together?" ]);
    ("(.*)",
     [ "I'm listening carefully. Can you tell me more about how you're feeling?";
       "I hear you. How is this affecting you?" ]) ].

(** The follow-ups of [respond]. *)
Definition follow_ups : list string :=
  [ "I want to make sure I understand. Can you explain that in another way?";
    "I'm listening carefully. What else is on your mind?";
    "That's important. How has this been affecting you?";
    "glad you could share that. What would be helpful for you right now?" ].

(** The rows of [initialize_resources]: title, description, url, category. *)
Definition seed_resources : list (string * string * string * string) :=
  [ ("Vandrevala Foundation",
     "24/7 Mental Health Helpline: Call +91 9999 666 555",
     "https://www.vandrevalafoundation.com", "crisis");
    ("iCall",
     "Psychosocial helpline (Mon-Sat, 10AM-8PM): +91 91529 87821",
     "https://icallhelpline.org", "crisis");
    ("COOJ Mental Health Foundation",
     "Helpline for Goa: +91 98225 25200",
     "https://cooj.co.in", "crisis");
    ("The Mind Clinic",
     "Online therapy sessions (Pan-India)",
     "https://themindclan.com", "therapy");
    ("InnerHour",
     "Self-care app with Indian therapists",
     "https://www.theinnerhour.com", "therapy");
    ("Manas",
     "Free counseling by TISS students",
     "https://www.tiss.edu/manas", "therapy");
    ("Let's Talk About Mental Health",
     "Hindi/English mental health guides",
     "https://letstalkaboutmentalhealth.com.in", "self-help");
    ("The Health Collective",
     "Mental health stories & resources",
     "https://www.thehealthcollective.in", "education");
    ("Sangath",
     "Mental health support for LGBTQ+",
     "https://sangath.in", "lgbtq");
    ("Nazariya",
     "Queer-affirmative counseling",
     "http://nazariyaqfrg.tumblr.com", "lgbtq");
    ("National Suicide Prevention Lifeline",
     "24/7 free and confidential support",
     "https://988lifeline.org", "crisis");
    ("Crisis Text Line",
     "Text HOME to 741741 for 24/7 crisis support",
     "https://www.crisistextline.org", "crisis");
    ("Mindfulness Exercises",
     "Guided mindfulness and meditation exercises",
     "https://www.mindful.org/free-mindfulness-resources/", "self-help");
    ("7 Cups",
     "Free online therapy and counseling",
     "https://www.7cups.com", "therapy");
    ("Anger Management",
     "Healthy ways to process anger",
     "https://www.apa.org/topics/anger/control", "anger");
    ("Anxiety UK",
     "Support for anxiety and fear",
     "https://www.anxietyuk.org.uk", "fear");
    ("The Friendship Bench",
     "Combat loneliness",
     "https://friendshipbenchzimbabwe.org", "loneliness");
    ("Emotional Numbness Guide",
     "Understanding detachment",
     "https://www.healthline.com/health/emotional-numbness", "numbness") ].

Record EnhancedMentalHealthChatbot : Type :=
  { bot_pairs : list (string * list string);       (* [self.pairs] *)
    chatbot : Nltk.Chat;                            (* [self.chatbot] *)
    bot_resources : list ResourceEntry;             (* [self.resources] *)
    user_context : list (string * string) }.        (* [self.user_context] *)



(** The id that an [AUTOINCREMENT] column gives to a new row. *)
Definition fresh_id (seq : nat) (ids : list nat) : nat :=
  S (fold_right Nat.max seq ids).

(** [_log_conversation] *)
Definition log_conversation (user_input bot_response : string)
           (sentiment_score : Z) (w : World) : World :=
  let id := fresh_id (conversations_seq w) (map conv_id (conversations w)) in
  {| conversations :=
       (conversations w
        ++ [ {| conv_id := id;
                user_input := user_input;
                bot_response := bot_response;
                sentiment_score := sentiment_score |} ])%list;
     conversations_seq := id;
     resources := resources w;
     resources_seq := resources_seq w;
     console := console w |}.

(** [_get_answer_for_question] *)
Fixpoint get_answer_for_question (qs : list KnowledgeEntry) (question_ : string)
  : option string :=
  match qs with
  | [] => None
  | q :: qs' =>
      if String.eqb (question q) question_ then Some (answer q)
      else get_answer_for_question qs' question_
  end.

Section Respond.
Context {SM : SequenceMatcher}.

(** The first part of [respond]: the answer that the knowledge base gives,
    when the best match and its answer are both present and not empty. *)
Definition kb_answer (kb : KnowledgeBase) (user_input : string)
  : outcome (option string) :=
  best_match <- find_best_match user_input (map question (questions kb)) ;;
  Ok (match best_match with
      | Some q =>
          if Py.truthy q
          then match get_answer_for_question (questions kb) q with
               | Some a => if Py.truthy a then Some a else None
               | None => None
               end
          else None
      | None => None
      end).

(** [if not response or response == "None"] *)
Definition no_good_response (response : option string) : bool :=
  match response with
  | None => true
  | Some r => negb (Py.truthy r) || String.eqb r "None"
  end.

(** [respond(user_input)] *)
Definition respond (fuel : nat) (kb : KnowledgeBase)
           (self : EnhancedMentalHealthChatbot) (user_input : string)
           (w : World) (g : Rng) : outcome string * World * Rng :=
  match kb_answer kb user_input with
  | Raise e => (Raise e, w, g)
  | Diverge => (Diverge, w, g)
  | Ok (Some a) => (Ok a, w, g)
  | Ok None =>
      match Nltk.respond fuel (chatbot self) user_input g with
      | (Raise e, g1) => (Raise e, w, g1)
      | (Diverge, g1) => (Diverge, w, g1)
      | (Ok response, g1) =>
          let (chosen, g2) :=
            if no_good_response response
            then random_choice follow_ups g1
            else (Ok (match response with Some r => r | None => "" end), g1)
          in
          match chosen with
          | Ok response =>
              let sentiment := analyze_sentiment user_input in
              (Ok response,
               log_conversation user_input response sentiment w, g2)
          | Raise e => (Raise e, w, g2)
          | Diverge => (Diverge, w, g2)
          end
      end
  end.


End Respond.



(** ** Resource seeding: [initialize_resources] *)

(** [cursor.executemany('INSERT INTO resources ...', rows)] *)
Fixpoint insert_resources (rows : list (string * string * string * string))
         (table : list ResourceEntry) (seq : nat)
  : list ResourceEntry * nat :=
  match rows with
  | [] => (table, seq)
  | (t, d, u, c) :: rows' =>
      let id := fresh_id seq (map res_id table) in
      insert_resources rows'
        (table ++ [ {| res_id := id; title := t; description := d;
                       url := u; category := c |} ])%list
        id
  end.

Definition initialize_resources (w : World) : World :=
  if (List.length (resources w) =? 0)%nat
  then
    let (table, seq) :=
      insert_resources seed_resources (resources w) (resources_seq w) in
    {| conversations := conversations w;
       conversations_seq := conversations_seq w;
       resources := table;
       resources_seq := seq;
       console := (console w ++ ["Resources database initialized"])%list |}
  else
    {| conversations := conversations w;
       conversations_seq := conversations_seq w;
       resources := resources w;
       resources_seq := resources_seq w;
       console := (console w ++ ["Resources already exist in database"])%list |}.

(** ** The chat window: [ChatUI]

    Of the window, the model keeps the text of the entry box, the messages
    of the chat display with their tags, the calls registered with
    [master.after] and the arguments of the [process_response] threads that
    were started. *)

Inductive tag : Type := TagUser | TagBot | TagResource.

Inductive callback : Type :=
| Destroy                                         (* [self.master.destroy] *)
| Display (sender message : string) (resource : bool).

Record ChatUI : Type :=
  { entry : string;                               (* [self.user_input] *)
    chat_display : list (string * tag);
    scheduled : list (nat * callback);
    threads : list string;
    ui_chatbot : EnhancedMentalHealthChatbot }.

(** [display_message(sender, message, resource=False)] *)
Definition display_message (sender message : string) (resource : bool)
           (ui : ChatUI) : ChatUI :=
  let tg := if String.eqb sender "user" then TagUser
            else if resource then TagResource else TagBot in
  let prefix := if String.eqb sender "user" then "You: " else "Support Bot: " in
  let lf := String Re.newline EmptyString in
  {| entry := entry ui;
     chat_display :=
       (chat_display ui ++ [((prefix ++ message ++ lf ++ lf)%string, tg)])%list;
     scheduled := scheduled ui;
     threads := threads ui;
     ui_chatbot := ui_chatbot ui |}.

Definition farewell : string :=
  "Thank you for chatting. Remember to be kind to yourself. You can always come back if you need to talk.".

(** [master.after(ms, f)] *)
Definition after (ms : nat) (f : callback) (ui : ChatUI) : ChatUI :=
  {| entry := entry ui;
     chat_display := chat_display ui;
     scheduled := (scheduled ui ++ [(ms, f)])%list;
     threads := threads ui;
     ui_chatbot := ui_chatbot ui |}.

(** [send_message(event=None)] *)
Definition send_message (ui : ChatUI) : ChatUI :=
  let user_input := Py.strip (entry ui) in
  if negb (Py.truthy user_input) then ui
  else if String.eqb (Py.lower user_input) "quit"
  then after 2000 Destroy (display_message "bot" farewell false ui)
  else
    let ui := display_message "user" user_input false ui in
    {| entry := EmptyString;
       chat_display := chat_display ui;
       scheduled := scheduled ui;
       threads := (threads ui ++ [user_input])%list;
       ui_chatbot := ui_chatbot ui |}.



Section Window.
Context {SM : SequenceMatcher}.




End Window.

(** ** What the proofs speak about *)

(** *** The shape of the compiled patterns

    Thirteen patterns of the table read: a group of [.*], a lead of literal
    characters, a group with the alternation of the keywords, a group of
    [.*].  The last pattern is a single group of [.*]. *)

Module Shape.
Import Re.

Fixpoint lit (w : string) (rest : regex) : regex :=
  match w with
  | EmptyString => rest
  | String c w' => Seq (Atom (Chr c)) (lit w' rest)
  end.

Fixpoint alts (kws : list string) : regex :=
  match kws with
  | [] => Eps
  | [w] => lit w Eps
  | w :: kws' => Alt (lit w Eps) (alts kws')
  end.

Definition any_star : regex := Seq (Star Any) Eps.

Definition keyword_rule (lead : string) (kws : list string) : pattern :=
  {| rx := Seq (Group 1 any_star)
               (lit lead (Seq (Group 2 (alts kws)) (Seq (Group 3 any_star) Eps)));
     ngroups := 3 |}.

Definition catch_all : pattern :=
  {| rx := Seq (Group 1 any_star) Eps; ngroups := 1 |}.

(** The lead and the keywords of the thirteen keyword rules, in order. *)
Definition keyword_rules : list (string * list string) :=
  [ (" feeling ", ["sad"; "depressed"; "lonely"; "down"; "exhausted"; "hopeless"]);
    (" ", ["stress"; "anxiety"; "stressed"; "anxious"; "panic"; "overwhelmed"]);
    (" ", ["happy"; "good"; "great"; "awesome"; "wonderful"]);
    (" ", ["burden"; "useless"; "worthless"; "stupid"; "not enough"; "failure"]);
    (" ", ["suicide"; "end it all"; "kill myself"; "don't want to live"]);
    (" ", ["help me"; "need help"; "support"]);
    (" ", ["cope"; "coping"; "deal with"]);
    (" ", ["angry"; "frustrated"; "annoyed"; "irritated"; "mad"]);
    (" ", ["scared"; "afraid"; "fearful"; "terrified"]);
    (" ", ["lonely"; "isolated"; "alone"]);
    (" ", ["confused"; "uncertain"; "lost"]);
    (" ", ["grateful"; "thankful"; "appreciative"]);
    (" ", ["numb"; "empty"; "detached"]) ].

(** One entry of the compiled table. *)
Inductive rule : Type :=
| Keyword (lead : string) (kws : list string) (templates : list string)
| CatchAll (templates : list string).

Definition r_pattern (r : rule) : pattern :=
  match r with
  | Keyword lead kws _ => keyword_rule lead kws
  | CatchAll _ => catch_all
  end.

Definition r_templates (r : rule) : list string :=
  match r with
  | Keyword _ _ templates => templates
  | CatchAll templates => templates
  end.

Definition rules : list rule :=
  (map (fun '((lead, kws), (_, templates)) => Keyword lead kws templates)
       (combine keyword_rules load_response_patterns)
   ++ [ CatchAll (snd (last load_response_patterns ("", []))) ])%list.

Definition table : list (pattern * list string) :=
  map (fun r => (r_pattern r, r_templates r)) rules.

(** What [Chat(pairs, reflections)] builds from the table. *)
Definition chat : Nltk.Chat :=
  {| Nltk.pairs := table;
     Nltk.refl := Nltk.reflections;
     Nltk.refl_keys := Nltk.sorted_by_len (map fst Nltk.reflections) |}.

End Shape.

(** *** Placeholders *)

Definition percent : ascii := "%"%char.

(** [t] with every [%2] replaced by [r]. *)
Fixpoint replace2 (r t : string) : string :=
  match t with
  | EmptyString => EmptyString
  | String c t1 =>
      match t1 with
      | String d t2 =>
          if Ascii.eqb c percent && Ascii.eqb d "2"
          then r ++ replace2 r t2
          else String c (replace2 r t1)
      | EmptyString => String c EmptyString
      end
  end.

(** Every [%] of [t] is the head of a [%2]. *)
Fixpoint placeholders2 (t : string) : bool :=
  match t with
  | EmptyString => true
  | String c t1 =>
      match t1 with
      | String d t2 =>
          if Ascii.eqb c percent
          then Ascii.eqb d "2" && placeholders2 t2
          else placeholders2 t1
      | EmptyString => negb (Ascii.eqb c percent)
      end
  end.

Fixpoint count_percent (t : string) : nat :=
  match t with
  | EmptyString => 0
  | String c t' => (if Ascii.eqb c percent then 1 else 0) + count_percent t'
  end.

(** A reply that [respond] keeps: neither empty nor the text [None]. *)
Definition good_reply (reply : string) : bool :=
  Py.truthy reply && negb (String.eqb reply "None").

(** A keyword of a rule is sound for its templates when what [_substitute]
    makes of it holds no [%], and every template mentions group 2 only, at
    most twice, and is a reply to keep once filled in and tidied. *)
Definition keyword_ok (templates : list string) (kw : string) : bool :=
  String.eqb (Py.lower kw) kw
  && match Nltk.substitute Shape.chat (Some kw) with
     | Ok r =>
         match Py.find percent r with
         | None =>
             forallb (fun t => placeholders2 t
                               && (count_percent t <=? 2)%nat
                               && good_reply (Nltk.fix_punctuation (replace2 r t)))
                     templates
         | Some _ => false
         end
     | _ => false
     end.

Definition rule_ok (r : Shape.rule) : bool :=
  negb (List.length (Shape.r_templates r) =? 0)%nat
  && match r with
     | Shape.Keyword _ kws templates =>
         negb (List.length kws =? 0)%nat && forallb (keyword_ok templates) kws
     | Shape.CatchAll templates =>
         forallb (fun t => match Py.find percent t with
                           | None => good_reply (Nltk.fix_punctuation t)
                           | Some _ => false
                           end)
                 templates
     end.




(** The columns that [initialize_resources] writes. *)
Definition seeded (r : ResourceEntry) : string * string * string * string :=
  (title r, description r, url r, category r).


Definition feeling_keywords : list string :=
  ["sad"; "depressed"; "lonely"; "down"; "exhausted"; "hopeless"].


Definition feeling_templates : list string :=
  [ "I'm really sorry you're feeling %2. That sounds really difficult. Would you like to share more about what's going on?";
    "I hear that you're feeling %2. That must be really hard. I'm here to listen if you want to talk about it." ].

Section Turns.
Context {SM : SequenceMatcher}.



End Turns.

(** *** Sample data *)

Definition sample_world : World :=
  {| conversations := [];
     conversations_seq := 0;
     resources := [];
     resources_seq := 0;
     console := [] |}.

Definition sample_rng : Rng := {| rand := fun n => n; rand_pos := 0 |}.

Definition sample_kb : KnowledgeBase :=
  {| questions :=
       [ {| question := "What is anxiety?";
            answer := "Anxiety is a feeling of worry or unease." |};
         {| question := "How can I sleep better?";
            answer := "Keep regular hours and put screens away before bed." |} ] |}.

Definition sample_bot : EnhancedMentalHealthChatbot :=
  {| bot_pairs := load_response_patterns;
     chatbot := Shape.chat;
     bot_resources := [];
     user_context := [] |}.

Definition sample_ui (text : string) : ChatUI :=
  {| entry := text;
     chat_display := [];
     scheduled := [];
     threads := [];
     ui_chatbot := sample_bot |}.


(** *** More vocabulary *)

(** The replies that a rule can give: each of its templates, filled in with
    what [_substitute] makes of each of its keywords, and tidied. *)
Definition possible_replies (r : Shape.rule) : list string :=
  match r with
  | Shape.Keyword _ kws templates =>
      flat_map (fun kw =>
                  match Nltk.substitute Shape.chat (Some kw) with
                  | Ok text =>
                      map (fun t => Nltk.fix_punctuation (replace2 text t))
                          templates
                  | _ => []
                  end)
               kws
  | Shape.CatchAll templates => map Nltk.fix_punctuation templates
  end.


(** [f] holds of every character of [s]. *)
Fixpoint string_forall (f : ascii -> bool) (s : string) : bool :=
  match s with
  | EmptyString => true
  | String c s' => f c && string_forall f s'
  end.

(** The groups of a match, letter case set aside. *)
Definition lower_groups (g : Re.captures) : Re.captures :=
  map (fun '(n, t) => (n, Py.lower t)) g.

(** Two match objects that differ by letter case only. *)
Definition case_equal (m m' : Re.match_obj) : Prop :=
  Py.lower (Re.whole m) = Py.lower (Re.whole m')
  /\ lower_groups (Re.groups m) = lower_groups (Re.groups m')
  /\ Re.group_count m = Re.group_count m'.

(** Both fail, or both succeed with related results. *)
Definition opt_rel {A : Type} (rel : A -> A -> Prop) (x y : option A) : Prop :=
  match x, y with
  | Some a, Some b => rel a b
  | None, None => True
  | _, _ => False
  end.

(** The head of a list of scored candidates has the largest score. *)
Definition head_is_max (l : list (Q * string)) : Prop :=
  match l with
  | [] => True
  | y :: _ => forall z, In z l -> (fst z <= fst y)%Q
  end.

(** * Properties *)

(** ** Sample calls *)

Module Examples.

Example rmatch_feeling :
  Re.rmatch (Shape.keyword_rule " feeling " feeling_keywords)
            "I am FEELING Sad today"
  = Some {| Re.whole := "I am FEELING Sad today";
            Re.groups := [(3, " today"); (2, "Sad"); (1, "I am")];
            Re.group_count := 3 |}.
Proof. vm_compute. reflexivity. Qed.

Example substitute_reflects :
  Nltk.substitute Shape.chat (Some "I am sure you are")
  = Ok "you are sure I am".
Proof. vm_compute. reflexivity. Qed.

Example ratio_anxiety :
  (@ratio Difflib.matcher "What is anxiety?" "what is anxiety" == 28 # 31)%Q.
Proof. vm_compute. reflexivity. Qed.

Example find_best_match_miss :
  @find_best_match Difflib.matcher "I am feeling sad"
     (map question (questions sample_kb)) = Ok None.
Proof. vm_compute. reflexivity. Qed.

Example respond_feeling_sad :
  @respond Difflib.matcher 2 sample_kb sample_bot "I am feeling sad"
           sample_world sample_rng
  = (Ok (replace2 "sad" (hd "" feeling_templates)),
     {| conversations :=
          [ {| conv_id := 1;
               user_input := "I am feeling sad";
               bot_response := replace2 "sad" (hd "" feeling_templates);
               sentiment_score := -1 |} ];
        conversations_seq := 1;
        resources := [];
        resources_seq := 0;
        console := [] |},
     next_draw sample_rng).
Proof. vm_compute. reflexivity. Qed.

Example send_message_quit :
  let ui := send_message (sample_ui " Quit ") in
  map snd (chat_display ui) = [TagBot]
  /\ scheduled ui = [(2000, Destroy)]
  /\ threads ui = [].
Proof. vm_compute. repeat split. Qed.

Example send_message_text :
  let ui := send_message (sample_ui " hello ") in
  map snd (chat_display ui) = [TagUser]
  /\ entry ui = ""
  /\ threads ui = ["hello"].
Proof. vm_compute. repeat split. Qed.

End Examples.

(** ** The table as the constructor sees it *)

Lemma Chat_init_table :
  Nltk.Chat_init load_response_patterns Nltk.reflections = Ok Shape.chat.
Proof. vm_compute. reflexivity. Qed.

Lemma rules_ok : forallb rule_ok Shape.rules = true.
Proof. vm_compute. reflexivity. Qed.


(** ** Strings *)

Lemma append_nil_r (s : string) : s ++ "" = s.
Proof. induction s as [|c s IH]; cbn; [reflexivity | now rewrite IH]. Qed.

Lemma append_assoc (a b c : string) : (a ++ b) ++ c = a ++ b ++ c.
Proof. induction a as [|x a IH]; cbn; [reflexivity | now rewrite IH]. Qed.


Lemma take_append (a b : string) : Py.take (String.length a) (a ++ b) = a.
Proof. induction a as [|x a IH]; cbn; [now destruct b | now rewrite IH]. Qed.

Lemma drop_append (a b : string) : Py.drop (String.length a) (a ++ b) = b.
Proof. induction a as [|x a IH]; cbn; [reflexivity | exact IH]. Qed.

Lemma drop_drop (n m : nat) (s : string) :
  Py.drop n (Py.drop m s) = Py.drop (m + n) s.
Proof.
  revert s; induction m as [|m IH]; intros s; cbn; [reflexivity|].
  destruct s as [|c s]; [now destruct n | apply IH].
Qed.

Lemma take_drop (n : nat) (s : string) : Py.take n s ++ Py.drop n s = s.
Proof.
  revert s; induction n as [|n IH]; intros s; cbn; [reflexivity|].
  destruct s as [|c s]; cbn; [reflexivity | now rewrite IH].
Qed.

Lemma length_drop (n : nat) (s : string) :
  String.length (Py.drop n s) = String.length s - n.
Proof.
  revert s; induction n as [|n IH]; intros s; cbn; [lia|].
  destruct s as [|c s]; cbn; [reflexivity | apply IH].
Qed.

Lemma consumed_drop (n : nat) (s : string) :
  n <= String.length s -> Re.consumed s (Py.drop n s) = Py.take n s.
Proof.
  intros H. unfold Re.consumed. rewrite length_drop. f_equal. lia.
Qed.


(** ** The matcher *)

Module ReFacts.
Import Re Shape.

Section Star.
Context {R : Type}.
Implicit Types (k : string -> option R) (a : atom).

(** Whatever [star] returns comes from the continuation. *)
Lemma star_sound a s k x : star a s k = Some x -> exists s', k s' = Some x.
Proof.
  induction s as [|c s IH]; cbn.
  - intros H; now exists "".
  - destruct (atom_match a c).
    + destruct (star a s k) as [y|] eqn:E.
      * intros H; injection H as ->. now apply IH.
      * intros H. now exists (String c s).
    + intros H. now exists (String c s).
Qed.

(** A continuation that always succeeds makes [star] succeed. *)
Lemma star_some a s k (P : R -> Prop) :
  (forall v, exists x, k v = Some x /\ P x) ->
  exists x, star a s k = Some x /\ P x.
Proof.
  intros Hk. induction s as [|c s IH]; cbn.
  - apply Hk.
  - destruct (atom_match a c); [|apply Hk].
    destruct IH as (x & -> & HP). now exists x.
Qed.



End Star.



(** A run of literal characters is a test on the head of the input. *)
Lemma run_lit {R} (w : string) (rest : regex) (s : string) (g : captures)
      (k : string -> captures -> option R) :
  run (lit w rest) s g k
  = if Nltk.ci_prefix w s then run rest (Py.drop (String.length w) s) g k
    else None.
Proof.
  revert s; induction w as [|c w IH]; intros s; cbn; [reflexivity|].
  destruct s as [|d s]; [reflexivity|].
  cbn. destruct (Ascii.eqb (Py.lower_char c) (Py.lower_char d)); cbn;
    [apply IH | reflexivity].
Qed.

Lemma ci_prefix_length (w s : string) :
  Nltk.ci_prefix w s = true -> String.length w <= String.length s.
Proof.
  revert s; induction w as [|c w IH]; intros [|d s]; cbn;
    try lia; try discriminate.
  intros H. apply andb_true_iff in H as [_ H]. apply IH in H. lia.
Qed.

Lemma ci_prefix_lower (w s : string) :
  Nltk.ci_prefix w s = true ->
  Py.lower (Py.take (String.length w) s) = Py.lower w.
Proof.
  revert s; induction w as [|c w IH]; intros [|d s]; cbn; try reflexivity;
    try discriminate.
  intros H. apply andb_true_iff in H as [H1 H2].
  apply Ascii.eqb_eq in H1. rewrite (IH _ H2). now rewrite H1.
Qed.

(** An alternation of keywords matches one of them. *)
Lemma run_alts_sound {R} (kws : list string) (s : string) (g : captures)
      (k : string -> captures -> option R) (x : R) :
  kws <> [] ->
  run (alts kws) s g k = Some x ->
  exists kw, In kw kws /\ Nltk.ci_prefix kw s = true
             /\ k (Py.drop (String.length kw) s) g = Some x.
Proof.
  induction kws as [|kw kws IH]; [congruence|]. intros _.
  destruct kws as [|kw' kws].
  - cbn [alts]. rewrite run_lit.
    destruct (Nltk.ci_prefix kw s) eqn:E; [|discriminate].
    cbn [run]. intros H. exists kw. cbn; auto.
  - change (alts (kw :: kw' :: kws)) with (Alt (lit kw Eps) (alts (kw' :: kws))).
    cbn [run]. rewrite run_lit.
    destruct (Nltk.ci_prefix kw s) eqn:E.
    + cbn [run]. destruct (k (Py.drop (String.length kw) s) g) as [y|] eqn:Ek.
      * intros H; injection H as ->. exists kw. cbn; auto.
      * intros H. destruct (IH ltac:(discriminate) H) as (kw0 & Hin & Hp & Hk).
        exists kw0. split; [now right | auto].
    + intros H. destruct (IH ltac:(discriminate) H) as (kw0 & Hin & Hp & Hk).
      exists kw0. split; [now right | auto].
Qed.

Lemma ci_prefix_append (a b s : string) :
  Nltk.ci_prefix (a ++ b) s
  = Nltk.ci_prefix a s && Nltk.ci_prefix b (Py.drop (String.length a) s).
Proof.
  revert s; induction a as [|c a IH]; intros s; cbn; [reflexivity|].
  destruct s as [|d s]; [reflexivity|].
  rewrite IH. now rewrite andb_assoc.
Qed.


(** What a keyword rule captures: group 2 is a keyword up to letter case. *)
Lemma keyword_rule_groups (lead : string) (kws : list string) (s : string)
      (m : match_obj) :
  kws <> [] ->
  rmatch (keyword_rule lead kws) s = Some m ->
  exists g1 g2 g3 kw,
    groups m = [(3, g3); (2, g2); (1, g1)] /\ group_count m = 3
    /\ In kw kws /\ Py.lower g2 = Py.lower kw.
Proof.
  intros Hk. unfold rmatch, keyword_rule, any_star. cbn [rx ngroups run].
  intros H. apply star_sound in H as (s1 & H).
  rewrite run_lit in H.
  destruct (Nltk.ci_prefix lead s1) eqn:E1; [|discriminate].
  cbn [run] in H. apply run_alts_sound in H as (kw & Hin & E2 & H); [|exact Hk].
  apply star_sound in H as (s3 & H). injection H as <-. cbn.
  do 3 eexists. exists kw. split; [reflexivity|]. split; [reflexivity|].
  split; [exact Hin|].
  rewrite consumed_drop by now apply ci_prefix_length.
  now apply ci_prefix_lower.
Qed.

(** The last pattern matches every input. *)
Lemma catch_all_matches (s : string) : exists m, rmatch catch_all s = Some m.
Proof.
  unfold rmatch, catch_all, any_star. cbn [rx ngroups run].
  destruct (star_some Any s
              (fun s' => Some {| whole := consumed s s';
                                 groups := [(1, consumed s s')];
                                 group_count := 1 |})
              (fun _ => True)) as (x & Hx & _).
  - intros v. eexists. split; [reflexivity | exact I].
  - now exists x.
Qed.

End ReFacts.

(** ** Placeholders and [_wildcards] *)

Module NltkFacts.
Import Nltk.

Lemma find_append_none (c : ascii) (a b : string) :
  Py.find c a = None ->
  Py.find c (a ++ b) = option_map (Nat.add (String.length a)) (Py.find c b).
Proof.
  induction a as [|d a IH]; cbn.
  - intros _. now destruct (Py.find c b).
  - destruct (Ascii.eqb d c); [discriminate|].
    destruct (Py.find c a); [discriminate|]. intros _.
    rewrite IH by reflexivity. now destruct (Py.find c b).
Qed.

Lemma find_head (c : ascii) (s : string) : Py.find c (String c s) = Some 0.
Proof. cbn. now rewrite Ascii.eqb_refl. Qed.

Lemma find_cons (x c : ascii) (s : string) :
  Py.find x (String c s)
  = if Ascii.eqb c x then Some 0 else option_map S (Py.find x s).
Proof. reflexivity. Qed.

Lemma replace2_cons (r : string) (c d : ascii) (t : string) :
  replace2 r (String c (String d t))
  = if Ascii.eqb c percent && Ascii.eqb d "2"
    then r ++ replace2 r t
    else String c (replace2 r (String d t)).
Proof. reflexivity. Qed.

Lemma count_percent_cons (c : ascii) (t : string) :
  count_percent (String c t)
  = (if Ascii.eqb c percent then 1 else 0) + count_percent t.
Proof. reflexivity. Qed.

(** A template is either free of [%] or splits at its first [%2]. *)
Lemma split_percent (r t : string) :
  placeholders2 t = true ->
  (Py.find percent t = None /\ replace2 r t = t)
  \/ exists u v,
       t = u ++ String percent (String "2" v)
       /\ Py.find percent u = None
       /\ placeholders2 v = true
       /\ replace2 r t = u ++ r ++ replace2 r v
       /\ count_percent t = S (count_percent v).
Proof.
  induction t as [|c t1 IH]; [now left|].
  destruct t1 as [|d t2].
  - cbn. destruct (Ascii.eqb c percent); [discriminate|]. now left.
  - intros H. cbn [placeholders2] in H.
    destruct (Ascii.eqb c percent) eqn:Ec.
    + apply andb_true_iff in H as [Hd H2].
      apply Ascii.eqb_eq in Ec, Hd. subst c d.
      right. exists "", t2. repeat split; auto.
    + destruct (IH H) as [[Hn Hr] | (u & v & E & Hu & Hv & Hr & Hc)].
      * left. split.
        -- rewrite find_cons, Ec, Hn. reflexivity.
        -- rewrite replace2_cons, Ec. cbn [andb]. now rewrite Hr.
      * right. exists (String c u), v. repeat split; auto.
        -- cbn [append]. now rewrite <- E.
        -- rewrite find_cons, Ec, Hu. reflexivity.
        -- rewrite replace2_cons, Ec. cbn [andb]. now rewrite Hr.
        -- rewrite count_percent_cons, Ec, Hc. reflexivity.
Qed.

Lemma wildcards_eq (fuel : nat) (self : Chat) (response : string)
      (m : Re.match_obj) :
  wildcards fuel self response m
  = match Py.find percent response with
    | None => Ok response
    | Some pos =>
        match fuel with
        | O => Diverge
        | S fuel' =>
            num <- int1 (Py.slice (pos + 1) (pos + 2) response) ;;
            g <- Re.group m num ;;
            text <- substitute self g ;;
            wildcards fuel' self
                      (Py.take pos response ++ text ++ Py.drop (pos + 2) response)
                      m
        end
    end.
Proof. destruct fuel; reflexivity. Qed.

(** With group 2 set and nothing but [%2] in the template, [_wildcards]
    replaces every [%2] by what [_substitute] makes of the group. *)
Lemma wildcards_replace2 (self : Chat) (m : Re.match_obj) (g2 r : string) :
  Re.group m 2 = Ok (Some g2) ->
  substitute self (Some g2) = Ok r ->
  Py.find percent r = None ->
  forall fuel t done,
    Py.find percent done = None ->
    placeholders2 t = true ->
    count_percent t <= fuel ->
    wildcards fuel self (done ++ t) m = Ok (done ++ replace2 r t).
Proof.
  intros Hg Hs Hr. induction fuel as [|fuel IH]; intros t done Hd Ht Hc.
  - destruct (split_percent r t Ht)
      as [[Hn Hrt] | (u & v & E & _ & _ & _ & Hn)]; [|lia].
    rewrite wildcards_eq, find_append_none, Hn by exact Hd. cbn.
    now rewrite Hrt.
  - destruct (split_percent r t Ht)
      as [[Hn Hrt] | (u & v & E & Hu & Hv & Hrt & Hn)].
    + rewrite wildcards_eq, find_append_none, Hn by exact Hd. cbn.
      now rewrite Hrt.
    + subst t. rewrite Hrt.
      assert (HD : Py.find percent (done ++ u) = None).
      { rewrite find_append_none, Hu by exact Hd. reflexivity. }
      rewrite <- !append_assoc.
      set (D := done ++ u) in *.
      rewrite wildcards_eq, find_append_none, find_head by exact HD.
      cbn [option_map]. rewrite Nat.add_0_r.
      unfold Py.slice.
      replace (String.length D + 2 - (String.length D + 1)) with 1 by lia.
      rewrite <- !drop_drop, !drop_append. cbn [Py.drop Py.take int1].
      change (Py.isdigit "2") with true. cbn [bind].
      change (Py.code "2" - 48) with 2. rewrite Hg. cbn [bind].
      rewrite Hs. cbn [bind]. rewrite take_append.
      rewrite <- append_assoc.
      apply IH; [|exact Hv|lia].
      rewrite find_append_none, Hr by exact HD. reflexivity.
Qed.

Lemma wildcards_plain (fuel : nat) (self : Chat) (t : string)
      (m : Re.match_obj) :
  Py.find percent t = None -> wildcards fuel self t m = Ok t.
Proof. intros H. now rewrite wildcards_eq, H. Qed.

End NltkFacts.

(** ** The pattern response engine on the table *)

Module EngineFacts.
Import Re Shape Nltk.

Lemma random_choice_cons {A : Type} (x : A) (l : list A) (g : Rng) :
  exists y, random_choice (x :: l) g = (Ok y, next_draw g) /\ In y (x :: l).
Proof.
  eexists. split; [reflexivity|].
  apply nth_In. apply Nat.mod_upper_bound. discriminate.
Qed.

(** Every template of a rule that matched is filled in without an error and
    is not empty afterwards. *)
Lemma rule_reply (r : rule) (s : string) (m : match_obj) (fuel : nat)
      (t : string) :
  rule_ok r = true ->
  rmatch (r_pattern r) s = Some m ->
  2 <= fuel ->
  In t (r_templates r) ->
  exists reply,
    wildcards fuel chat t m = Ok reply
    /\ good_reply (fix_punctuation reply) = true.
Proof.
  intros Hok Hm Hf Ht. unfold rule_ok in Hok.
  apply andb_true_iff in Hok as [_ Hok].
  destruct r as [lead kws templates | templates];
    cbn [r_pattern r_templates] in *.
  - apply andb_true_iff in Hok as [Hne Hok].
    assert (Hk : kws <> []) by (intros ->; discriminate).
    destruct (ReFacts.keyword_rule_groups lead kws s m Hk Hm)
      as (g1 & g2 & g3 & kw & Hg & Hn & Hin & Hl).
    rewrite forallb_forall in Hok. specialize (Hok kw Hin).
    unfold keyword_ok in Hok. apply andb_true_iff in Hok as [Hlow Hok].
    apply String.eqb_eq in Hlow.
    destruct (substitute chat (Some kw)) as [r| |] eqn:Es; try discriminate.
    destruct (Py.find percent r) eqn:Er; [discriminate|].
    rewrite forallb_forall in Hok. specialize (Hok t Ht).
    apply andb_true_iff in Hok as [Hok Htr].
    apply andb_true_iff in Hok as [Hp Hc]. apply Nat.leb_le in Hc.
    exists (replace2 r t). split; [|exact Htr].
    apply (NltkFacts.wildcards_replace2 chat m g2 r) with (done := "").
    + unfold group. rewrite Hn, Hg. reflexivity.
    + cbn [substitute] in *. rewrite Hl. exact Es.
    + exact Er.
    + reflexivity.
    + exact Hp.
    + lia.
  - rewrite forallb_forall in Hok. specialize (Hok t Ht).
    destruct (Py.find percent t) eqn:Et; [discriminate|].
    exists t. split; [|exact Hok]. now apply NltkFacts.wildcards_plain.
Qed.

(** With sound rules and a catch-all among them, the loop of [Chat.respond]
    returns a reply that is not empty, after one draw. *)
Lemma respond_pairs_reply (rs : list rule) (fuel : nat) (s : string)
      (g : Rng) :
  (forall r, In r rs -> rule_ok r = true) ->
  (exists t, In (CatchAll t) rs) ->
  2 <= fuel ->
  exists reply,
    respond_pairs fuel chat (map (fun r => (r_pattern r, r_templates r)) rs) s g
    = (Ok (Some reply), next_draw g)
    /\ good_reply reply = true.
Proof.
  intros Hok Hc Hf. induction rs as [|r rs IH]; [now destruct Hc|].
  cbn [map respond_pairs].
  destruct (rmatch (r_pattern r) s) as [m|] eqn:Em.
  - assert (Hr : rule_ok r = true) by (apply Hok; now left).
    destruct (r_templates r) as [|t0 ts] eqn:Et.
    { unfold rule_ok in Hr. rewrite Et in Hr. discriminate. }
    destruct (random_choice_cons t0 ts g) as (t & -> & Hin).
    rewrite <- Et in Hin.
    destruct (rule_reply r s m fuel t Hr Em Hf Hin) as (reply & Hw & Htr).
    cbn [bind]. rewrite Hw. cbn [bind]. now exists (fix_punctuation reply).
  - apply IH.
    + intros r' Hr'. apply Hok. now right.
    + destruct Hc as (t & [-> | Hin]); [|now exists t].
      cbn [r_pattern] in Em. destruct (ReFacts.catch_all_matches s) as (m & Hm).
      congruence.
Qed.

Lemma catch_all_in_rules : exists t, In (CatchAll t) rules.
Proof. eexists. unfold rules. apply in_or_app. right. now left. Qed.

(** [Chat.respond] on the table of the chatbot. *)
Lemma respond_reply (fuel : nat) (s : string) (g : Rng) :
  2 <= fuel ->
  exists reply,
    Nltk.respond fuel chat s g = (Ok (Some reply), next_draw g)
    /\ good_reply reply = true.
Proof.
  intros Hf. unfold Nltk.respond. change (pairs chat) with table. unfold table.
  apply respond_pairs_reply; [|exact catch_all_in_rules|exact Hf].
  intros r Hr. pose proof rules_ok as H. rewrite forallb_forall in H.
  now apply H.
Qed.

End EngineFacts.

(** ** The first rule on an input with [ feeling sad] *)

Module FeelingFacts.
Import Re Shape.






End FeelingFacts.

(** ** The scorer *)

Module SentimentFacts.



End SentimentFacts.

(** ** The lookup *)

Module LookupFacts.
Section WithMatcher.
Context {SM : SequenceMatcher}.

Lemma in_firstn {A : Type} (x : A) (n : nat) (l : list A) :
  In x (firstn n l) -> In x l.
Proof.
  revert l; induction n as [|n IH]; intros [|y l]; cbn; try tauto.
  intros [->|H]; auto.
Qed.

Lemma in_insert_desc (x y : Q * string) (l : list (Q * string)) :
  In x (insert_desc y l) -> x = y \/ In x l.
Proof.
  induction l as [|z l IH]; cbn.
  - intros [<-|[]]. now left.
  - destruct (scored_gt z y); cbn.
    + intros [<-|H]; [right; now left|].
      destruct (IH H) as [->|H']; auto.
    + intros [<-|[<-|H]]; auto.
Qed.

Lemma in_nlargest (x : Q * string) (n : nat) (l : list (Q * string)) :
  In x (nlargest n l) -> In x l.
Proof.
  unfold nlargest. intros H. apply in_firstn in H.
  induction l as [|y l IH]; cbn in *; [exact H|].
  apply in_insert_desc in H as [->|H]; auto.
Qed.

(** With [n=1] and the cutoff 0.6, [get_close_matches] raises nothing and
    returns at most one of the possibilities, one that passed the test. *)
Lemma get_close_matches_one (word : string) (possibilities : list string) :
  exists ms,
    get_close_matches word possibilities 1 cutoff = Ok ms
    /\ List.length ms <= 1
    /\ forall q, In q ms ->
                 In q possibilities /\ close_enough cutoff word q = true.
Proof.
  unfold get_close_matches.
  change (negb (0 <? 1)%nat) with false.
  change (negb (Qle_bool 0 cutoff && Qle_bool cutoff 1)) with false.
  cbn [negb]. eexists. split; [reflexivity|]. split.
  - rewrite length_map. apply firstn_le_length.
  - intros q Hq. apply in_map_iff in Hq as ((sc & q') & E & Hq).
    cbn in E. subst q'. apply in_nlargest in Hq.
    apply in_map_iff in Hq as (q' & E & Hq). injection E as _ ->.
    now apply filter_In in Hq.
Qed.




End WithMatcher.
End LookupFacts.

(** ** The orchestration *)

Module RespondFacts.
Section WithMatcher.
Context {SM : SequenceMatcher}.


(** A turn on the knowledge-base path leaves everything as it was. *)
Lemma respond_kb_path (self : EnhancedMentalHealthChatbot) (fuel : nat)
      (kb : KnowledgeBase) (user_input a : string) (w : World) (g : Rng) :
  kb_answer kb user_input = Ok (Some a) ->
  respond fuel kb self user_input w g = (Ok a, w, g).
Proof. intros Hk. unfold respond. now rewrite Hk. Qed.

End WithMatcher.
End RespondFacts.

(** * The claims *)

(** C1.  A turn for which the knowledge-base lookup yields an answer (a best
    match that is not empty, with a stored answer that is not empty) returns
    that answer at once: nothing is scored or logged, no draw is made, and
    the store, the conversation log in particular, is what it was before
    the turn. *)
Theorem C1_kb_turn_leaves_log {SM : SequenceMatcher} (fuel : nat)
        (kb : KnowledgeBase) (self : EnhancedMentalHealthChatbot)
        (user_input q a : string) (w : World) (g : Rng) :
  find_best_match user_input (map question (questions kb)) = Ok (Some q) ->
  Py.truthy q = true ->
  get_answer_for_question (questions kb) q = Some a ->
  Py.truthy a = true ->
  respond fuel kb self user_input w g = (Ok a, w, g)
  /\ conversations (snd (fst (respond fuel kb self user_input w g)))
     = conversations w.
Proof.
  intros Hq Hqt Ha Hat.
  assert (Hk : kb_answer kb user_input = Ok (Some a)).
  { unfold kb_answer. rewrite Hq. cbn [bind]. now rewrite Hqt, Ha, Hat. }
  rewrite (RespondFacts.respond_kb_path self fuel kb user_input a w g Hk).
  split; reflexivity.
Qed.

Lemma C1_witness :
  let user_input := "what is anxiety" in
  let q := "What is anxiety?" in
  let a := "Anxiety is a feeling of worry or unease." in
  @find_best_match Difflib.matcher user_input
     (map question (questions sample_kb))
  = Ok (Some q)
  /\ Py.truthy q = true
  /\ get_answer_for_question (questions sample_kb) q = Some a
  /\ Py.truthy a = true
  /\ @respond Difflib.matcher 2 sample_kb sample_bot user_input
              sample_world sample_rng
     = (Ok a, sample_world, sample_rng).
Proof.
  cbv zeta.
  assert (H1 : @find_best_match Difflib.matcher "what is anxiety"
                 (map question (questions sample_kb))
               = Ok (Some "What is anxiety?")) by (vm_compute; reflexivity).
  split; [exact H1|]. do 3 (split; [reflexivity|]).
  apply (@C1_kb_turn_leaves_log Difflib.matcher 2 sample_kb sample_bot
           "what is anxiety" "What is anxiety?"
           "Anxiety is a feeling of worry or unease." sample_world sample_rng);
    (exact H1 || reflexivity).
Defined.





(** C3.  For every input the pattern response engine returns a reply that
    is not empty: the pattern of the last rule matches every input, so the
    loop over the rules always finds a rule, and filling in its template
    raises no error (two units of fuel are enough for [_wildcards]). *)
Theorem C3_engine_always_replies (chat : Nltk.Chat) (fuel : nat)
        (input : string) (g : Rng) :
  Nltk.Chat_init load_response_patterns Nltk.reflections = Ok chat ->
  2 <= fuel ->
  (exists front pat templates m,
      Nltk.pairs chat = (front ++ [(pat, templates)])%list
      /\ Re.compile "(.*)" = Some pat
      /\ Re.rmatch pat input = Some m)
  /\ exists reply g',
      Nltk.respond fuel chat input g = (Ok (Some reply), g')
      /\ reply <> "".
Proof.
  intros Hc Hf. rewrite Chat_init_table in Hc. injection Hc as <-. split.
  - destruct (ReFacts.catch_all_matches input) as (m & Hm).
    exists (removelast Shape.table), Shape.catch_all.
    eexists. exists m. split; [|split; [|exact Hm]]; vm_compute; reflexivity.
  - destruct (EngineFacts.respond_reply fuel input g Hf) as (reply & Hr & Hg).
    exists reply, (next_draw g). split; [exact Hr|].
    intros ->. discriminate.
Qed.

Lemma C3_witness :
  Nltk.Chat_init load_response_patterns Nltk.reflections = Ok Shape.chat
  /\ 2 <= 2
  /\ exists reply g',
      Nltk.respond 2 Shape.chat "it rained all day" sample_rng
      = (Ok (Some reply), g')
      /\ reply <> "".
Proof.
  split; [exact Chat_init_table|]. split; [lia|].
  apply (C3_engine_always_replies Shape.chat 2 "it rained all day" sample_rng);
    [exact Chat_init_table | lia].
Defined.


(** C5.  [find_best_match] returns at most one candidate, a question of the
    list whose similarity to the user text is at least 0.6, and it is a
    function of its two arguments: two calls on the same arguments give the
    same result. *)
Theorem C5_find_best_match {SM : SequenceMatcher} (user_question : string)
        (questions : list string) :
  (exists ms,
      get_close_matches user_question questions 1 cutoff = Ok ms
      /\ List.length ms <= 1
      /\ find_best_match user_question questions = Ok (hd_error ms))
  /\ (forall q,
         find_best_match user_question questions = Ok (Some q) ->
         In q questions /\ (6 # 10 <= ratio q user_question)%Q)
  /\ (forall r1 r2,
         find_best_match user_question questions = r1 ->
         find_best_match user_question questions = r2 ->
         r1 = r2).
Proof.
  destruct (LookupFacts.get_close_matches_one user_question questions)
    as (ms & Hg & Hl & Hin).
  assert (Hf : find_best_match user_question questions = Ok (hd_error ms)).
  { unfold find_best_match. rewrite Hg. cbn [bind]. now destruct ms. }
  split; [now exists ms|]. split.
  - intros q Hq. rewrite Hf in Hq. injection Hq as Hq.
    destruct ms as [|m ms']; [discriminate|]. injection Hq as ->.
    destruct (Hin q (or_introl eq_refl)) as [H1 H2]. split; [exact H1|].
    unfold close_enough in H2. apply andb_true_iff in H2 as [_ H2].
    now apply Qle_bool_iff in H2.
  - intros r1 r2 <- <-. reflexivity.
Qed.

Lemma C5_witness :
  @find_best_match Difflib.matcher "what is anxiety"
     ["How can I sleep better?"; "What is anxiety?"]
  = Ok (Some "What is anxiety?")
  /\ In "What is anxiety?" ["How can I sleep better?"; "What is anxiety?"]
  /\ (6 # 10 <= @ratio Difflib.matcher "What is anxiety?" "what is anxiety")%Q.
Proof.
  assert (H : @find_best_match Difflib.matcher "what is anxiety"
                ["How can I sleep better?"; "What is anxiety?"]
              = Ok (Some "What is anxiety?")) by (vm_compute; reflexivity).
  split; [exact H|].
  exact (proj1 (proj2 (@C5_find_best_match Difflib.matcher "what is anxiety"
                         ["How can I sleep better?"; "What is anxiety?"]))
               "What is anxiety?" H).
Defined.







Module SeedFacts.

Lemma insert_resources_app (rows : list (string * string * string * string))
      (table : list ResourceEntry) (seq : nat) :
  exists new,
    fst (insert_resources rows table seq) = (table ++ new)%list
    /\ map seeded new = rows.
Proof.
  revert table seq.
  induction rows as [|[[[t d] u] c] rows IH]; intros table seq.
  - exists []. cbn. now rewrite app_nil_r.
  - cbn [insert_resources].
    destruct (IH (table ++ [ {| res_id := fresh_id seq (map res_id table);
                                title := t; description := d; url := u;
                                category := c |} ])%list
                 (fresh_id seq (map res_id table))) as (new & -> & Hn).
    eexists (_ :: new). rewrite <- app_assoc. split; [reflexivity|].
    cbn [map seeded title description url category]. now rewrite Hn.
Qed.

Lemma seed_empty (w : World) :
  resources w = [] ->
  map seeded (resources (initialize_resources w)) = seed_resources.
Proof.
  intros E. unfold initialize_resources. rewrite E. cbn [List.length Nat.eqb].
  destruct (insert_resources_app seed_resources [] (resources_seq w))
    as (new & Hn & Hm).
  destruct (insert_resources seed_resources [] (resources_seq w)) as [table seq].
  cbn [fst] in Hn. subst table. cbn [resources app]. exact Hm.
Qed.

Lemma seed_skipped (w : World) :
  resources w <> [] ->
  resources (initialize_resources w) = resources w
  /\ resources_seq (initialize_resources w) = resources_seq w.
Proof.
  intros E. unfold initialize_resources.
  destruct (resources w) as [|r l] eqn:Er; [congruence|].
  cbn [List.length Nat.eqb resources resources_seq]. now split.
Qed.

Lemma seeded_not_empty (w : World) : resources (initialize_resources w) <> [].
Proof.
  destruct (resources w) as [|r l] eqn:E.
  - intros E'. pose proof (seed_empty w E) as H. rewrite E' in H. discriminate.
  - destruct (seed_skipped w) as [-> _]; rewrite E; discriminate.
Qed.

End SeedFacts.

(** C8.  [initialize_resources] inserts the fixed list of rows only into an
    empty table, and a second run inserts nothing: after two runs in a row
    the table is what it was after the first.  From an empty table this is
    the fixed list, 18 rows; a table that is not empty is left as it is. *)
Theorem C8_seeding_idempotent (w : World) :
  let w1 := initialize_resources w in
  let w2 := initialize_resources w1 in
  resources w2 = resources w1
  /\ resources_seq w2 = resources_seq w1
  /\ (resources w = [] ->
      map seeded (resources w1) = seed_resources
      /\ List.length (resources w1) = 18
      /\ List.length (resources w2) = 18)
  /\ (resources w <> [] -> resources w1 = resources w).
Proof.
  cbv zeta.
  destruct (SeedFacts.seed_skipped (initialize_resources w)
              (SeedFacts.seeded_not_empty w)) as [H1 H2].
  split; [exact H1|]. split; [exact H2|]. split.
  - intros E. pose proof (SeedFacts.seed_empty w E) as H.
    split; [exact H|]. rewrite H1, <- (length_map seeded), H. now split.
  - intros E. now apply SeedFacts.seed_skipped.
Qed.

Lemma C8_witness :
  resources sample_world = []
  /\ map seeded (resources (initialize_resources sample_world)) = seed_resources
  /\ List.length (resources (initialize_resources sample_world)) = 18
  /\ List.length
       (resources (initialize_resources (initialize_resources sample_world)))
     = 18.
Proof.
  split; [reflexivity|].
  apply (C8_seeding_idempotent sample_world). reflexivity.
Defined.





(** * Further properties *)

(** ** The engine: which rule replies, and with what *)

Module EngineMore.
Import Re Shape Nltk.

(** As [EngineFacts.rule_reply], and the reply is one of the rule's. *)
Lemma rule_reply_in (r : rule) (s : string) (m : match_obj) (fuel : nat)
      (t : string) :
  rule_ok r = true ->
  rmatch (r_pattern r) s = Some m ->
  2 <= fuel ->
  In t (r_templates r) ->
  exists reply,
    wildcards fuel chat t m = Ok reply
    /\ In (fix_punctuation reply) (possible_replies r).
Proof.
  intros Hok Hm Hf Ht. unfold rule_ok in Hok.
  apply andb_true_iff in Hok as [_ Hok].
  destruct r as [lead kws templates | templates];
    cbn [r_pattern r_templates possible_replies] in *.
  - apply andb_true_iff in Hok as [Hne Hok].
    assert (Hk : kws <> []) by (intros ->; discriminate).
    destruct (ReFacts.keyword_rule_groups lead kws s m Hk Hm)
      as (g1 & g2 & g3 & kw & Hg & Hn & Hin & Hl).
    rewrite forallb_forall in Hok. specialize (Hok kw Hin).
    unfold keyword_ok in Hok. apply andb_true_iff in Hok as [Hlow Hok].
    apply String.eqb_eq in Hlow.
    destruct (substitute chat (Some kw)) as [r| |] eqn:Es; try discriminate.
    destruct (Py.find percent r) eqn:Er; [discriminate|].
    rewrite forallb_forall in Hok. specialize (Hok t Ht).
    apply andb_true_iff in Hok as [Hok Htr].
    apply andb_true_iff in Hok as [Hp Hc]. apply Nat.leb_le in Hc.
    exists (replace2 r t). split.
    + apply (NltkFacts.wildcards_replace2 chat m g2 r) with (done := "");
        try assumption; try reflexivity; [| |lia].
      * unfold group. rewrite Hn, Hg. reflexivity.
      * cbn [substitute] in *. rewrite Hl. exact Es.
    + apply in_flat_map. exists kw. split; [exact Hin|].
      rewrite Es. apply in_map_iff. now exists t.
  - rewrite forallb_forall in Hok. specialize (Hok t Ht).
    destruct (Py.find percent t) eqn:Et; [discriminate|].
    exists t. split; [now apply NltkFacts.wildcards_plain|].
    apply in_map_iff. now exists t.
Qed.

(** The loop of [Chat.respond] stops at the first rule whose pattern
    matches, and replies with one of that rule's replies. *)
Lemma first_match (rs : list rule) (fuel : nat) (s : string) (g : Rng) :
  (forall r, In r rs -> rule_ok r = true) ->
  (exists t, In (CatchAll t) rs) ->
  2 <= fuel ->
  exists front r back m reply,
    rs = (front ++ r :: back)%list
    /\ Forall (fun r' => rmatch (r_pattern r') s = None) front
    /\ rmatch (r_pattern r) s = Some m
    /\ respond_pairs fuel chat
         (map (fun r => (r_pattern r, r_templates r)) rs) s g
       = (Ok (Some reply), next_draw g)
    /\ In reply (possible_replies r).
Proof.
  intros Hok Hc Hf. induction rs as [|r rs IH]; [now destruct Hc|].
  cbn [map respond_pairs].
  destruct (rmatch (r_pattern r) s) as [m|] eqn:Em.
  - assert (Hr : rule_ok r = true) by (apply Hok; now left).
    destruct (r_templates r) as [|t0 ts] eqn:Et.
    { unfold rule_ok in Hr. rewrite Et in Hr. discriminate. }
    destruct (EngineFacts.random_choice_cons t0 ts g) as (t & -> & Hin).
    rewrite <- Et in Hin.
    destruct (rule_reply_in r s m fuel t Hr Em Hf Hin) as (reply & Hw & Hp).
    cbn [bind]. rewrite Hw. cbn [bind].
    exists [], r, rs, m, (fix_punctuation reply). repeat split; auto.
  - destruct IH as (front & r' & back & m & reply & E & Hfr & Hm & Hres & Hp).
    + intros r' Hr'. apply Hok. now right.
    + destruct Hc as (t & [-> | Hin]); [|now exists t].
      cbn [r_pattern] in Em. destruct (ReFacts.catch_all_matches s) as (m & Hm).
      congruence.
    + exists (r :: front), r', back, m, reply.
      repeat split; auto; now rewrite E.
Qed.

Lemma rules_all_ok (r : rule) : In r rules -> rule_ok r = true.
Proof.
  pose proof rules_ok as H. rewrite forallb_forall in H. apply H.
Qed.

End EngineMore.

Module MatchFacts.
Import Re Shape Nltk.

Lemma string_forall_app (f : ascii -> bool) (a b : string) :
  string_forall f (a ++ b) = string_forall f a && string_forall f b.
Proof.
  induction a as [|c a IH]; cbn; [reflexivity | now rewrite IH, andb_assoc].
Qed.

(** The texts that [.*] can pass over are those without a line feed. *)
Lemma string_forall_any (p : string) :
  string_forall (atom_match Any) p = true <-> Py.find newline p = None.
Proof.
  induction p as [|c p IH]; cbn [string_forall]; [easy|].
  rewrite NltkFacts.find_cons. cbn [atom_match].
  destruct (Ascii.eqb c newline); cbn [negb andb]; [easy|].
  rewrite IH. destruct (Py.find newline p); easy.
Qed.

Section Star.
Context {R : Type}.
Implicit Types (k : string -> option R) (a : atom).

(** What [star] returns comes from the continuation, after a run of
    matching characters. *)
Lemma star_split a s k x :
  star a s k = Some x ->
  exists p t,
    s = p ++ t /\ string_forall (atom_match a) p = true /\ k t = Some x.
Proof.
  induction s as [|c s IH]; cbn [star].
  - intros H. now exists "", "".
  - destruct (atom_match a c) eqn:Ec.
    + destruct (star a s k) as [y|] eqn:E.
      * intros H; injection H as ->.
        destruct (IH eq_refl) as (p & t & -> & Hp & Hk).
        exists (String c p), t. cbn [append string_forall]. now rewrite Ec, Hp.
      * intros H. now exists "", (String c s).
    + intros H. now exists "", (String c s).
Qed.

Lemma star_fallback a s k x : k s = Some x -> exists y, star a s k = Some y.
Proof.
  intros H. destruct s as [|c s]; cbn [star]; [now exists x|].
  destruct (atom_match a c); [|now exists x].
  destruct (star a s k) as [y|]; [now exists y | now exists x].
Qed.

(** [star] succeeds as soon as the continuation succeeds after some run of
    matching characters. *)
Lemma star_complete a p t k x :
  string_forall (atom_match a) p = true ->
  k t = Some x ->
  exists y, star a (p ++ t) k = Some y.
Proof.
  induction p as [|c p IH]; cbn [string_forall append].
  - intros _ H. now apply star_fallback with x.
  - intros H Hk. apply andb_true_iff in H as [Hc Hp].
    destruct (IH Hp Hk) as (y & Hy). cbn [star]. rewrite Hc, Hy. now exists y.
Qed.

End Star.

(** An alternation of keywords matches where one of them is, when what
    follows cannot fail. *)
Lemma run_alts_complete {R} (kws : list string) (kw s : string) (g : captures)
      (k : string -> captures -> option R) :
  In kw kws ->
  ci_prefix kw s = true ->
  (forall s' g', exists y, k s' g' = Some y) ->
  exists y, run (alts kws) s g k = Some y.
Proof.
  intros Hin Hp Hk. induction kws as [|kw0 kws IH]; [destruct Hin|].
  destruct kws as [|kw1 kws].
  - destruct Hin as [->|[]]. cbn [alts]. rewrite ReFacts.run_lit, Hp.
    cbn [run]. apply Hk.
  - change (alts (kw0 :: kw1 :: kws))
      with (Alt (lit kw0 Eps) (alts (kw1 :: kws))).
    cbn [run]. rewrite ReFacts.run_lit.
    destruct (ci_prefix kw0 s) eqn:E0.
    + cbn [run]. destruct (Hk (Py.drop (String.length kw0) s) g) as (y & ->).
      now exists y.
    + destruct Hin as [->|Hin]; [congruence|]. now apply IH.
Qed.

(** When a keyword rule fires: somewhere on the first line of the input,
    the lead and one of the keywords follow, letter case ignored. *)
Lemma keyword_rule_fires (lead : string) (kws : list string) (s : string) :
  kws <> [] ->
  (exists m, rmatch (keyword_rule lead kws) s = Some m)
  <-> exists p t kw,
        s = p ++ t /\ Py.find newline p = None
        /\ In kw kws /\ ci_prefix (lead ++ kw) t = true.
Proof.
  intros Hk. unfold rmatch, keyword_rule, any_star. cbn [rx ngroups run].
  split.
  - intros (m & H). apply star_split in H as (p & t & -> & Hp & H).
    rewrite ReFacts.run_lit in H.
    destruct (ci_prefix lead t) eqn:E1; [|discriminate].
    cbn [run] in H.
    apply ReFacts.run_alts_sound in H as (kw & Hin & E2 & _); [|exact Hk].
    exists p, t, kw. repeat split; auto.
    + now apply string_forall_any.
    + now rewrite ReFacts.ci_prefix_append, E1, E2.
  - intros (p & t & kw & -> & Hp & Hin & Hc).
    rewrite ReFacts.ci_prefix_append in Hc.
    apply andb_true_iff in Hc as [E1 E2].
    apply string_forall_any in Hp.
    match goal with
    | |- exists m, star Any _ ?k = Some m =>
        assert (Ht : exists x, k t = Some x)
    end.
    { cbv beta. rewrite ReFacts.run_lit, E1. cbn [run].
      apply run_alts_complete with kw; [exact Hin | exact E2 |].
      intros s' g'. cbv beta.
      match goal with
      | |- exists y, star Any s' ?k = Some y =>
          destruct (ReFacts.star_some Any s' k (fun _ => True)) as (y & Hy & _)
      end.
      - intros v. eexists. split; [reflexivity | exact I].
      - now exists y. }
    destruct Ht as (x & Ht). now apply star_complete with x.
Qed.

End MatchFacts.

Module TableFacts.
Import Re Shape Nltk.

Lemma pairs_of_init (chat : Chat) :
  Chat_init load_response_patterns reflections = Ok chat -> chat = Shape.chat.
Proof. rewrite Chat_init_table. now intros [= <-]. Qed.



(** [Chat.respond] on the table, with the rule that replied. *)
Lemma respond_first_match (fuel : nat) (s : string) (g : Rng) :
  2 <= fuel ->
  exists front r back m reply,
    rules = (front ++ r :: back)%list
    /\ Forall (fun r' => rmatch (r_pattern r') s = None) front
    /\ rmatch (r_pattern r) s = Some m
    /\ Nltk.respond fuel chat s g = (Ok (Some reply), next_draw g)
    /\ In reply (possible_replies r).
Proof.
  intros Hf. unfold Nltk.respond. change (pairs chat) with table. unfold table.
  apply EngineMore.first_match;
    [exact EngineMore.rules_all_ok | exact EngineFacts.catch_all_in_rules
     | exact Hf].
Qed.

(** The only character that a blank of a pattern matches is the blank. *)
Lemma blank_matches_blank (c : ascii) :
  atom_match (Chr " ") c = true -> c = " "%char.
Proof.
  destruct c as [[] [] [] [] [] [] [] []]; vm_compute; congruence.
Qed.

Lemma find_in_app (c : ascii) (a b : string) :
  Py.find c (a ++ String c b) <> None.
Proof.
  induction a as [|d a IH]; cbn [append]; rewrite NltkFacts.find_cons.
  - now rewrite Ascii.eqb_refl.
  - destruct (Ascii.eqb d c); [discriminate|].
    destruct (Py.find c (a ++ String c b)); [discriminate | contradiction].
Qed.


End TableFacts.







(** X4.  An input without a blank gets the generic reply: no keyword rule
    can fire on it, since every lead starts with a blank, so the reply is
    one of the two templates of the last rule, even when the input is a
    keyword such as [sad] or [suicide]. *)
Theorem X4_no_blank_generic_reply (chat : Nltk.Chat) (fuel : nat)
        (input : string) (g : Rng) :
  Nltk.Chat_init load_response_patterns Nltk.reflections = Ok chat ->
  2 <= fuel ->
  Py.find " " input = None ->
  exists reply,
    Nltk.respond fuel chat input g = (Ok (Some reply), next_draw g)
    /\ In reply (snd (last load_response_patterns ("", []))).
Proof.
  intros Hc Hf Hb. apply TableFacts.pairs_of_init in Hc as ->.
  destruct (TableFacts.respond_first_match fuel input g Hf)
    as (front & r & back & m & reply & E & _ & Hm & Hr & Hp).
  exists reply. split; [exact Hr|].
  assert (Hin : In r Shape.rules).
  { rewrite E. apply in_or_app. right. now left. }
  assert (Hl : forallb (fun r => match r with
                                 | Shape.Keyword lead kws _ =>
                                     String.prefix " " lead
                                     && negb (List.length kws =? 0)%nat
                                 | Shape.CatchAll t =>
                                     forallb (fun x => Py.mem x
                                       (snd (last load_response_patterns
                                                  ("", []))))
                                       (map Nltk.fix_punctuation t)
                                 end) Shape.rules = true)
    by (vm_compute; reflexivity).
  rewrite forallb_forall in Hl. specialize (Hl r Hin).
  destruct r as [lead kws templates | templates].
  - exfalso. apply andb_true_iff in Hl as [Hl Hk].
    assert (Hk' : kws <> []) by (intros ->; discriminate).
    cbn [Shape.r_pattern] in Hm.
    destruct (proj1 (MatchFacts.keyword_rule_fires lead kws input Hk')
                    (ex_intro _ m Hm)) as (p & t & kw & -> & _ & _ & Hci).
    destruct lead as [|c lead]; [discriminate|].
    revert Hl. cbn [String.prefix].
    destruct (Ascii.ascii_dec " " c) as [<-|]; [intros _|discriminate].
    destruct t as [|d t]; cbn [append Nltk.ci_prefix] in Hci; [discriminate|].
    apply andb_true_iff in Hci as [Hd _].
    apply TableFacts.blank_matches_blank in Hd. subst d.
    now apply (TableFacts.find_in_app " " p t).
  - cbn [possible_replies] in Hp. rewrite forallb_forall in Hl.
    specialize (Hl reply Hp). unfold Py.mem in Hl.
    apply existsb_exists in Hl as (x & Hx & Hxe).
    apply String.eqb_eq in Hxe. now subst x.
Qed.

Lemma X4_witness :
  Nltk.Chat_init load_response_patterns Nltk.reflections = Ok Shape.chat
  /\ 2 <= 2
  /\ Py.find " " "suicide" = None
  /\ exists reply,
      Nltk.respond 2 Shape.chat "suicide" sample_rng
      = (Ok (Some reply), next_draw sample_rng)
      /\ In reply ["I'm listening carefully. Can you tell me more about how you're feeling?";
                   "I hear you. How is this affecting you?"].
Proof.
  split; [exact Chat_init_table|]. split; [lia|]. split; [reflexivity|].
  apply (X4_no_blank_generic_reply Shape.chat 2 "suicide" sample_rng);
    [exact Chat_init_table | lia | reflexivity].
Defined.



(** ** The engine and letter case *)

Module CaseFacts.
Import Re Nltk.

Lemma lower_char_newline (c : ascii) :
  Ascii.eqb (Py.lower_char c) newline = Ascii.eqb c newline.
Proof. destruct c as [[] [] [] [] [] [] [] []]; vm_compute; reflexivity. Qed.

Lemma atom_match_lower (a : atom) (c c' : ascii) :
  Py.lower_char c = Py.lower_char c' -> atom_match a c = atom_match a c'.
Proof.
  intros H. destruct a as [d|]; cbn [atom_match]; [now rewrite H|].
  now rewrite <- (lower_char_newline c), <- (lower_char_newline c'), H.
Qed.

Lemma lower_cons_inv (c : ascii) (s t : string) :
  Py.lower (String c s) = Py.lower t ->
  exists c' t', t = String c' t' /\ Py.lower_char c = Py.lower_char c'
                /\ Py.lower s = Py.lower t'.
Proof.
  destruct t as [|c' t']; cbn [Py.lower]; [discriminate|].
  intros [= H1 H2]. now exists c', t'.
Qed.

Lemma lower_nil_inv (t : string) : "" = Py.lower t -> t = "".
Proof. destruct t; [reflexivity | discriminate]. Qed.

Lemma length_lower (s : string) : String.length (Py.lower s) = String.length s.
Proof. induction s as [|c s IH]; cbn; [reflexivity | now rewrite IH]. Qed.

Lemma lower_take (n : nat) (s : string) :
  Py.lower (Py.take n s) = Py.take n (Py.lower s).
Proof.
  revert s; induction n as [|n IH]; intros [|c s]; cbn; try reflexivity.
  now rewrite IH.
Qed.

Lemma consumed_lower (s s' t t' : string) :
  Py.lower s = Py.lower s' -> Py.lower t = Py.lower t' ->
  Py.lower (consumed s t) = Py.lower (consumed s' t').
Proof.
  intros Hs Ht. unfold consumed. rewrite !lower_take, Hs.
  rewrite <- (length_lower s), <- (length_lower t), Hs, Ht, !length_lower.
  reflexivity.
Qed.

Section Simulation.
Context {R : Type} (rel : R -> R -> Prop).

Lemma star_sim (a : atom) (k k' : string -> option R) :
  (forall t t', Py.lower t = Py.lower t' -> opt_rel rel (k t) (k' t')) ->
  forall s s', Py.lower s = Py.lower s' ->
               opt_rel rel (star a s k) (star a s' k').
Proof.
  intros Hk. induction s as [|c s IH]; intros s' Hs.
  - apply lower_nil_inv in Hs as ->. cbn [star]. now apply Hk.
  - pose proof Hs as Hs0.
    apply lower_cons_inv in Hs as (c' & t' & -> & Hc & Ht).
    cbn [star]. rewrite (atom_match_lower a c c' Hc).
    destruct (atom_match a c'); [|now apply Hk].
    specialize (IH t' Ht).
    destruct (star a s k), (star a t' k'); cbn [opt_rel] in IH |- *;
      try contradiction; [exact IH | now apply Hk].
Qed.

Lemma run_sim (r : regex) :
  forall (k k' : string -> captures -> option R) s s' g g',
    (forall t t' h h',
        Py.lower t = Py.lower t' -> lower_groups h = lower_groups h' ->
        opt_rel rel (k t h) (k' t' h')) ->
    Py.lower s = Py.lower s' ->
    lower_groups g = lower_groups g' ->
    opt_rel rel (run r s g k) (run r s' g' k').
Proof.
  induction r as [|a|a|r1 IH1 r2 IH2|r1 IH1 r2 IH2|n r IH];
    intros k k' s s' g g' Hk Hs Hg; cbn [run].
  - now apply Hk.
  - destruct s as [|c s].
    + apply lower_nil_inv in Hs as ->. exact I.
    + apply lower_cons_inv in Hs as (c' & t' & -> & Hc & Ht).
      rewrite (atom_match_lower a c c' Hc).
      destruct (atom_match a c'); [now apply Hk | exact I].
  - apply star_sim; [|exact Hs]. intros t t' Ht. now apply Hk.
  - apply IH1; [|exact Hs|exact Hg].
    intros t t' h h' Ht Hh. now apply IH2.
  - specialize (IH1 k k' s s' g g' Hk Hs Hg).
    specialize (IH2 k k' s s' g g' Hk Hs Hg).
    destruct (run r1 s g k), (run r1 s' g' k'); cbn [opt_rel] in IH1 |- *;
      try contradiction; [exact IH1 | exact IH2].
  - apply IH; [|exact Hs|exact Hg].
    intros t t' h h' Ht Hh. apply Hk; [exact Ht|].
    cbn [lower_groups map]. fold (lower_groups h). fold (lower_groups h').
    now rewrite Hh, (consumed_lower s s' t t' Hs Ht).
Qed.

End Simulation.

(** [match] on two inputs that differ by letter case only. *)
Lemma rmatch_sim (p : pattern) (s s' : string) :
  Py.lower s = Py.lower s' ->
  opt_rel case_equal (rmatch p s) (rmatch p s').
Proof.
  intros Hs. unfold rmatch. apply run_sim; [|exact Hs|reflexivity].
  intros t t' h h' Ht Hh. cbn [opt_rel]. unfold case_equal.
  cbn [whole groups group_count]. split; [|now split].
  now apply consumed_lower.
Qed.

Lemma lookup_lower (n : nat) (g : captures) :
  lookup n (lower_groups g) = option_map Py.lower (lookup n g).
Proof.
  induction g as [|[i t] g IH]; cbn [lower_groups map lookup];
    [reflexivity|].
  fold (lower_groups g). destruct (i =? n)%nat; [reflexivity | exact IH].
Qed.

(** What [_wildcards] makes of a group does not depend on its letter
    case. *)
Lemma group_substitute_sim (self : Chat) (m m' : match_obj) (num : nat) :
  case_equal m m' ->
  (g <- group m num ;; substitute self g)
  = (g <- group m' num ;; substitute self g).
Proof.
  intros (Hw & Hg & Hn). unfold group. rewrite Hn.
  destruct (num =? 0)%nat.
  - cbn [bind substitute]. now rewrite Hw.
  - destruct (group_count m' <? num)%nat; [reflexivity|]. cbn [bind].
    pose proof (lookup_lower num (groups m)) as H1.
    pose proof (lookup_lower num (groups m')) as H2.
    rewrite Hg, H2 in H1.
    destruct (lookup num (groups m)) as [t|], (lookup num (groups m')) as [t'|];
      cbn [option_map] in H1; try discriminate; [|reflexivity].
    injection H1 as H1. cbn [substitute]. now rewrite H1.
Qed.

Lemma bind_assoc_group (self : Chat) (m : match_obj) (num : nat)
      (f : string -> outcome string) :
  (g <- group m num ;; text <- substitute self g ;; f text)
  = (text <- (g <- group m num ;; substitute self g) ;; f text).
Proof. now destruct (group m num). Qed.

Lemma wildcards_sim (self : Chat) (m m' : match_obj) :
  case_equal m m' ->
  forall fuel response,
    wildcards fuel self response m = wildcards fuel self response m'.
Proof.
  intros Hm. induction fuel as [|fuel IH]; intros response;
    rewrite !NltkFacts.wildcards_eq;
    destruct (Py.find percent response) as [pos|]; try reflexivity.
  destruct (int1 (Py.slice (pos + 1) (pos + 2) response)) as [num| |];
    cbn [bind]; try reflexivity.
  rewrite !bind_assoc_group, (group_substitute_sim self m m' num Hm).
  destruct (g <- group m' num ;; substitute self g) as [text| |];
    cbn [bind]; try reflexivity.
  apply IH.
Qed.

Lemma respond_pairs_sim (fuel : nat) (self : Chat)
      (prs : list (pattern * list string)) (s s' : string) (g : Rng) :
  Py.lower s = Py.lower s' ->
  respond_pairs fuel self prs s g = respond_pairs fuel self prs s' g.
Proof.
  intros Hs. induction prs as [|[p response] prs IH]; [reflexivity|].
  cbn [respond_pairs]. pose proof (rmatch_sim p s s' Hs) as H.
  destruct (rmatch p s) as [m|], (rmatch p s') as [m'|]; cbn [opt_rel] in H;
    try contradiction; [|exact IH].
  destruct (random_choice response g) as [[resp| |] g']; cbn [bind];
    try reflexivity.
  now rewrite (wildcards_sim self m m' H).
Qed.

End CaseFacts.

(** X6.  The pattern response engine ignores the letter case of the input:
    two inputs that are equal up to letter case select the same rule and,
    for the same draw, get the same reply. *)
Theorem X6_engine_ignores_letter_case (self : Nltk.Chat) (fuel : nat)
        (s s' : string) (g : Rng) :
  Py.lower s = Py.lower s' ->
  Nltk.respond fuel self s g = Nltk.respond fuel self s' g.
Proof. intros Hs. unfold Nltk.respond. now apply CaseFacts.respond_pairs_sim. Qed.

Lemma X6_witness :
  Py.lower "I AM FEELING SAD" = Py.lower "i am Feeling sad"
  /\ Nltk.respond 2 Shape.chat "I AM FEELING SAD" sample_rng
     = Nltk.respond 2 Shape.chat "i am Feeling sad" sample_rng.
Proof.
  split; [reflexivity|].
  apply (X6_engine_ignores_letter_case Shape.chat 2 "I AM FEELING SAD"
                                       "i am Feeling sad" sample_rng).
  reflexivity.
Defined.

(** ** The lookup: which question is returned *)

Module BestFacts.
Section WithMatcher.
Context {SM : SequenceMatcher}.

Lemma in_insert_desc_keeps (x z : Q * string) (l : list (Q * string)) :
  z = x \/ In z l -> In z (insert_desc x l).
Proof.
  induction l as [|y l IH]; cbn [insert_desc].
  - intros [->|[]]. now left.
  - destruct (scored_gt y x); cbn [In].
    + intros [->|[->|H]]; [right; apply IH; now left | now left
                           | right; apply IH; now right].
    + intros [->|[->|H]]; auto.
Qed.

Lemma in_sorted_keeps (z : Q * string) (l : list (Q * string)) :
  In z l -> In z (fold_right insert_desc [] l).
Proof.
  induction l as [|y l IH]; cbn [fold_right]; [easy|].
  intros [->|H]; apply in_insert_desc_keeps; [now left | right; now apply IH].
Qed.

Lemma scored_gt_true (y x : Q * string) :
  scored_gt y x = true -> (fst x <= fst y)%Q.
Proof.
  unfold scored_gt. destruct (Qcompare (fst y) (fst x)) eqn:E; try discriminate.
  - intros _. apply Qeq_alt in E. rewrite E. apply Qle_refl.
  - intros _. apply Qgt_alt in E. now apply Qlt_le_weak.
Qed.

Lemma scored_gt_false (y x : Q * string) :
  scored_gt y x = false -> (fst y <= fst x)%Q.
Proof.
  unfold scored_gt. destruct (Qcompare (fst y) (fst x)) eqn:E; try discriminate.
  - intros _. apply Qeq_alt in E. rewrite E. apply Qle_refl.
  - intros _. apply Qlt_alt in E. now apply Qlt_le_weak.
Qed.

Lemma insert_desc_head (x : Q * string) (l : list (Q * string)) :
  head_is_max l -> head_is_max (insert_desc x l).
Proof.
  destruct l as [|y l]; cbn [insert_desc head_is_max].
  - intros _ z [->|[]]. apply Qle_refl.
  - intros H. destruct (scored_gt y x) eqn:E; cbn [head_is_max].
    + intros z [<-|Hz]; [apply Qle_refl|].
      apply LookupFacts.in_insert_desc in Hz as [->|Hz].
      * now apply scored_gt_true.
      * apply H. now right.
    + intros z [<-|Hz]; [apply Qle_refl|].
      apply Qle_trans with (fst y); [now apply H | now apply scored_gt_false].
Qed.

Lemma sorted_head (l : list (Q * string)) :
  head_is_max (fold_right insert_desc [] l).
Proof.
  induction l as [|x l IH]; cbn [fold_right]; [exact I|].
  now apply insert_desc_head.
Qed.

(** [find_best_match] in terms of the candidates that pass the test. *)
Lemma find_best_match_eq (word : string) (possibilities : list string) :
  find_best_match word possibilities
  = Ok (match fold_right insert_desc []
                 (map (fun x => (ratio x word, x))
                      (filter (close_enough cutoff word) possibilities)) with
        | (_, q) :: _ => Some q
        | [] => None
        end).
Proof.
  unfold find_best_match, get_close_matches.
  change (negb (0 <? 1)%nat) with false.
  change (negb (Qle_bool 0 cutoff && Qle_bool cutoff 1)) with false.
  cbn [negb bind]. unfold nlargest.
  now destruct (fold_right insert_desc [] _) as [|[sc q] l].
Qed.

End WithMatcher.
End BestFacts.

(** X7.  [find_best_match] returns a best match: the question it returns
    has the largest similarity to the user text among all the questions
    that pass the cutoff. *)
Theorem X7_find_best_match_is_best {SM : SequenceMatcher}
        (user_question q q' : string) (questions : list string) :
  find_best_match user_question questions = Ok (Some q) ->
  In q' questions ->
  close_enough cutoff user_question q' = true ->
  (ratio q' user_question <= ratio q user_question)%Q.
Proof.
  rewrite BestFacts.find_best_match_eq. intros H Hin Hc.
  pose proof (BestFacts.sorted_head
                (map (fun x => (ratio x user_question, x))
                     (filter (close_enough cutoff user_question) questions)))
    as Hmax.
  assert (Hq' : In (ratio q' user_question, q')
                   (fold_right insert_desc []
                      (map (fun x => (ratio x user_question, x))
                           (filter (close_enough cutoff user_question)
                                   questions)))).
  { apply BestFacts.in_sorted_keeps. apply in_map_iff. exists q'.
    split; [reflexivity|]. now apply filter_In. }
  destruct (fold_right insert_desc [] _) as [|[sc q0] l] eqn:E;
    [discriminate|].
  injection H as ->. cbn [head_is_max] in Hmax.
  assert (Hsc : In (sc, q) (fold_right insert_desc []
                      (map (fun x => (ratio x user_question, x))
                           (filter (close_enough cutoff user_question)
                                   questions)))).
  { rewrite E. now left. }
  assert (Hsc' : sc = ratio q user_question).
  { clear - Hsc. induction (filter _ questions) as [|x l IH];
      cbn [map fold_right] in Hsc; [destruct Hsc|].
    apply LookupFacts.in_insert_desc in Hsc as [Hsc|Hsc]; [|now apply IH].
    now injection Hsc as -> ->. }
  subst sc. exact (Hmax _ Hq').
Qed.

Lemma X7_witness :
  let qs := ["What is anxiety"; "What is anxiety?"; "How can I sleep better?"] in
  @find_best_match Difflib.matcher "what is anxiety?" qs
  = Ok (Some "What is anxiety?")
  /\ In "What is anxiety" qs
  /\ @close_enough Difflib.matcher cutoff "what is anxiety?" "What is anxiety"
     = true
  /\ (@ratio Difflib.matcher "What is anxiety" "what is anxiety?"
      <= @ratio Difflib.matcher "What is anxiety?" "what is anxiety?")%Q.
Proof.
  cbv zeta.
  assert (H1 : @find_best_match Difflib.matcher "what is anxiety?"
                 ["What is anxiety"; "What is anxiety?";
                  "How can I sleep better?"]
               = Ok (Some "What is anxiety?")) by (vm_compute; reflexivity).
  assert (H2 : @close_enough Difflib.matcher cutoff "what is anxiety?"
                 "What is anxiety" = true) by (vm_compute; reflexivity).
  split; [exact H1|]. split; [now left|]. split; [exact H2|].
  apply (@X7_find_best_match_is_best Difflib.matcher "what is anxiety?"
           "What is anxiety?" "What is anxiety"
           ["What is anxiety"; "What is anxiety?"; "How can I sleep better?"]);
    [exact H1 | now left | exact H2].
Defined.

(** X8.  [find_best_match] returns [None] exactly when no question passes
    the cutoff: a question that is close enough is never missed. *)
Theorem X8_find_best_match_none_iff {SM : SequenceMatcher}
        (user_question : string) (questions : list string) :
  find_best_match user_question questions = Ok None
  <-> forall q, In q questions ->
                close_enough cutoff user_question q = false.
Proof.
  rewrite BestFacts.find_best_match_eq. split.
  - intros H q Hin. destruct (close_enough cutoff user_question q) eqn:Hc;
      [|reflexivity].
    assert (Hq : In (ratio q user_question, q)
                    (fold_right insert_desc []
                       (map (fun x => (ratio x user_question, x))
                            (filter (close_enough cutoff user_question)
                                    questions)))).
    { apply BestFacts.in_sorted_keeps. apply in_map_iff. exists q.
      split; [reflexivity|]. now apply filter_In. }
    destruct (fold_right insert_desc [] _) as [|[sc q0] l];
      [destruct Hq | discriminate].
  - intros H.
    assert (E : filter (close_enough cutoff user_question) questions = []).
    { induction questions as [|x l IH]; [reflexivity|]. cbn [filter].
      rewrite (H x (or_introl eq_refl)). apply IH.
      intros q Hq. apply H. now right. }
    now rewrite E.
Qed.

Module AnswerFacts.

(** The answer of a question of the list is that of its first entry. *)
Lemma get_answer_first (qs : list KnowledgeEntry) (q : string) :
  In q (map question qs) ->
  exists front e back,
    qs = (front ++ e :: back)%list
    /\ question e = q
    /\ (forall e', In e' front -> question e' <> q)
    /\ get_answer_for_question qs q = Some (answer e).
Proof.
  induction qs as [|e qs IH]; cbn [map In]; [easy|].
  intros H. cbn [get_answer_for_question].
  destruct (String.eqb_spec (question e) q) as [E|E].
  - exists [], e, qs. repeat split; auto.
  - destruct H as [H|H]; [contradiction|].
    destruct (IH H) as (front & e0 & back & -> & Hq & Hf & Ha).
    exists (e :: front), e0, back. repeat split; auto.
    intros e' [<-|He']; auto.
Qed.

End AnswerFacts.

(** X9.  The answer lookup never misses.  A question that
    [find_best_match] returns is the question of an entry of the
    knowledge base, so [_get_answer_for_question] finds an answer for it
    (its [return None] is not reached from [respond]); with several
    entries for one question, it is the answer of the first of them. *)
Theorem X9_matched_question_has_answer {SM : SequenceMatcher}
        (kb : KnowledgeBase) (user_input q : string) :
  find_best_match user_input (map question (questions kb)) = Ok (Some q) ->
  exists front e back,
    questions kb = (front ++ e :: back)%list
    /\ question e = q
    /\ (forall e', In e' front -> question e' <> q)
    /\ get_answer_for_question (questions kb) q = Some (answer e)
    /\ (6 # 10 <= ratio (question e) user_input)%Q.
Proof.
  intros H.
  destruct (LookupFacts.get_close_matches_one user_input
              (map question (questions kb))) as (ms & Hg & _ & Hin).
  unfold find_best_match in H. rewrite Hg in H. cbn [bind] in H.
  destruct ms as [|m ms]; [discriminate|]. injection H as ->.
  destruct (Hin q (or_introl eq_refl)) as [Hq Hc].
  destruct (AnswerFacts.get_answer_first (questions kb) q Hq)
    as (front & e & back & E & He & Hf & Ha).
  exists front, e, back. repeat split; auto.
  rewrite He. unfold close_enough in Hc. apply andb_true_iff in Hc as [_ Hc].
  now apply Qle_bool_iff in Hc.
Qed.

Lemma X9_witness :
  let kb := {| questions :=
                 [ {| question := "How can I sleep better?";
                      answer := "Keep regular hours." |};
                   {| question := "What is anxiety?"; answer := "first" |};
                   {| question := "What is anxiety?"; answer := "second" |} ] |} in
  @find_best_match Difflib.matcher "what is anxiety"
     (map question (questions kb)) = Ok (Some "What is anxiety?")
  /\ exists front e back,
       questions kb = (front ++ e :: back)%list
       /\ question e = "What is anxiety?"
       /\ (forall e', In e' front -> question e' <> "What is anxiety?")
       /\ get_answer_for_question (questions kb) "What is anxiety?"
          = Some (answer e)
       /\ (6 # 10 <= @ratio Difflib.matcher (question e) "what is anxiety")%Q.
Proof.
  cbv zeta.
  assert (H : @find_best_match Difflib.matcher "what is anxiety"
                ["How can I sleep better?"; "What is anxiety?";
                 "What is anxiety?"]
              = Ok (Some "What is anxiety?")) by (vm_compute; reflexivity).
  split; [exact H|].
  exact (@X9_matched_question_has_answer Difflib.matcher
           {| questions :=
                [ {| question := "How can I sleep better?";
                     answer := "Keep regular hours." |};
                  {| question := "What is anxiety?"; answer := "first" |};
                  {| question := "What is anxiety?"; answer := "second" |} ] |}
           "what is anxiety" "What is anxiety?" H).
Defined.

(** X10.  With the similarity of [difflib], a question whose length is too
    far from that of the user text is never returned: the lengths of a
    matched question and of the text are within a factor of 7/3 of each
    other (the first test of [get_close_matches], on the lengths alone,
    already needs this for the cutoff 0.6). *)
Theorem X10_match_length_window (user_question q : string)
        (questions : list string) :
  @find_best_match Difflib.matcher user_question questions = Ok (Some q) ->
  3 * Nat.max (String.length q) (String.length user_question)
  <= 7 * Nat.min (String.length q) (String.length user_question).
Proof.
  intros H.
  destruct (@LookupFacts.get_close_matches_one Difflib.matcher user_question
              questions) as (ms & Hg & _ & Hin).
  unfold find_best_match in H. rewrite Hg in H. cbn [bind] in H.
  destruct ms as [|m ms]; [discriminate|]. injection H as ->.
  destruct (Hin q (or_introl eq_refl)) as [_ Hc].
  unfold close_enough in Hc. apply andb_true_iff in Hc as [Hc _].
  apply andb_true_iff in Hc as [Hc _]. apply Qle_bool_iff in Hc.
  cbn [real_quick_ratio Difflib.matcher] in Hc.
  unfold Difflib.sm_real_quick_ratio, Difflib.calculate_ratio, cutoff in Hc.
  destruct (String.length q + String.length user_question) as [|n] eqn:E;
    [lia|].
  unfold Qle in Hc. cbn [Qnum Qden] in Hc.
  rewrite <- Pos.of_nat_succ, Zpos_P_of_succ_nat in Hc. lia.
Qed.
